(** * nltk.classify.megam: the interface to the megam optimiser

    A shallow embedding of [src/nltk/classify/megam.py] and the properties
    of its four entry points: [config_megam], [write_megam_file],
    [parse_megam_weights] and [call_megam].

    Python values are represented as follows.
    - A [str] is the list of its code points ([text], a [list N]); a [bytes]
      object is a [list byte].
    - An [int] is a [Z]; the ['d'] entries of a numpy array are binary64
      floats ([float], the kernel's primitive type).
    - A raised exception is the [Raise] outcome of a [result].
    - The stream written by [write_megam_file] is the list of the objects
      handed to its [write] method, in order.
    - Module state ([_megam_bin]) and the console are fields of a [World]
      that every effectful function takes and returns. *)

From Stdlib.Strings Require Import Byte.
From Stdlib Require Import ZArith NArith List Ascii String Lia PrimFloat Uint63.
From stdpp Require Import base option list gmap strings.

Open Scope Z_scope.

(** ** Exceptions and outcomes *)

Inductive exn : Type :=
  | ValueError (msg : string)
  | AssertionError (msg : string)
  | TypeError (msg : string)
  | OSError (msg : string)
  | LookupError (msg : string)
  | UnicodeDecodeError
  | IndexError
  | KeyError.

Inductive result (A : Type) : Type :=
  | Ok (a : A)
  | Raise (e : exn).
Arguments Ok {A} a.
Arguments Raise {A} e.

#[global] Instance result_ret : MRet result := fun A a => Ok a.
#[global] Instance result_bind : MBind result := fun A B f m =>
  match m with
  | Ok a => f a
  | Raise e => Raise e
  end.

Definition raises {A} (r : result A) : Prop := ∃ e, r = Raise e.

(** ** Text *)

Abbreviation text := (list N).

(** The code points of a literal. *)
Definition txt (s : string) : text := N_of_ascii <$> list_ascii_of_string s.

Definition newline : N := 10%N.

(** [str.isspace] on one code point: the characters [str.strip] removes and
    [str.split] separates on. *)
Definition isspace (c : N) : bool :=
  ((0x09 <=? c) && (c <=? 0x0D) || (0x1C <=? c) && (c <=? 0x20)
   || (c =? 0x85) || (c =? 0xA0) || (c =? 0x1680)
   || (0x2000 <=? c) && (c <=? 0x200A)
   || (c =? 0x2028) || (c =? 0x2029) || (c =? 0x202F) || (c =? 0x205F)
   || (c =? 0x3000))%N.

Fixpoint lstrip (t : text) : text :=
  match t with
  | [] => []
  | c :: r => if isspace c then lstrip r else t
  end.

Definition rstrip (t : text) : text := reverse (lstrip (reverse t)).

(** [t.strip()] *)
Definition strip (t : text) : text := rstrip (lstrip t).

(** [t.split(sep)] for a one-character separator: never empty. *)
Fixpoint split_on (sep : N) (t : text) : list text :=
  match t with
  | [] => [[]]
  | c :: r =>
      if (c =? sep)%N then [] :: split_on sep r
      else match split_on sep r with
           | l :: ls => (c :: l) :: ls
           | [] => [[c]]
           end
  end.

(** [t.split()]: the maximal runs of characters that are not whitespace. *)
Fixpoint split (t : text) : list text :=
  match t with
  | [] => []
  | c :: r =>
      if isspace c then split r
      else match r with
           | [] => [[c]]
           | c' :: _ =>
               if isspace c' then [c] :: split r
               else match split r with
                    | w :: ws => (c :: w) :: ws
                    | [] => [[c]]
                    end
           end
  end.

(** [sep.join(parts)] *)
Fixpoint join (sep : text) (parts : list text) : text :=
  match parts with
  | [] => []
  | [p] => p
  | p :: ps => p ++ sep ++ join sep ps
  end.

(** ** Integers as text *)

Definition digit_char (d : N) : N := (48 + d)%N.

Fixpoint digits_fuel (fuel : nat) (n : N) (acc : text) : text :=
  match fuel with
  | O => acc
  | S fuel' =>
      let acc' := digit_char (n mod 10) :: acc in
      if (n <? 10)%N then acc' else digits_fuel fuel' (n / 10) acc'
  end.

(** The decimal digits of a natural number, most significant first. *)
Definition digits (n : N) : text := digits_fuel (S (N.to_nat (N.log2 n))) n [].

(** [str(z)] for an [int], which is also what ['%d' % z] and ['%s' % z]
    produce. *)
Definition str_int (z : Z) : text :=
  if z <? 0 then 45%N :: digits (Z.to_N (- z)) else digits (Z.to_N z).

(** What [str()] gives for the values that are written as they are. *)
Class PyStr (A : Type) := py_str : A → text.
#[global] Instance int_str : PyStr Z := str_int.
#[global] Instance nat_str : PyStr nat := fun n => str_int (Z.of_nat n).

(** A decimal digit of ASCII. *)
Definition is_digit (c : N) : Prop := (48 <= c <= 57)%N.

(** The number a string of digits denotes, read after [a]. *)
Definition digits_value (a : N) (ds : text) : N :=
  foldl (fun acc c => 10 * acc + (c - 48))%N a ds.

(** ** The host: what the interpreter and its libraries provide

    [unicode_decimal] is the Unicode database's decimal-digit property on the
    code points above ASCII, [py_float] is the builtin [float] on a [str], and
    [numpy_installed] tells whether [import numpy] succeeded. *)
Class PyHost := {
  numpy_installed : bool;
  unicode_decimal : N → option N;
  py_float : text → option float;
}.

Section Int.
Context `{PyHost}.

Definition digit_value (c : N) : option N :=
  if ((48 <=? c) && (c <=? 57))%N then Some (c - 48)%N
  else if (c <? 128)%N || isspace c then None
  else unicode_decimal c.

(** The digits of an integer literal after the first one has been checked:
    single underscores may separate digits. *)
Fixpoint int_digits (acc : N) (after_underscore : bool) (t : text) : option N :=
  match t with
  | [] => if after_underscore then None else Some acc
  | c :: r =>
      if (c =? 95)%N then
        if after_underscore then None else int_digits acc true r
      else match digit_value c with
           | Some d => int_digits (10 * acc + d)%N false r
           | None => None
           end
  end.

Definition int_literal (t : text) : option N :=
  match t with
  | [] => None
  | c :: _ => if (c =? 95)%N then None else int_digits 0 false t
  end.

(** The blanks [int] skips at both ends of its argument. *)
Definition int_space (c : N) : bool :=
  ((0x09 <=? c) && (c <=? 0x0D) || (c =? 0x20) || (128 <=? c) && isspace c)%N.

Fixpoint int_lstrip (t : text) : text :=
  match t with
  | [] => []
  | c :: r => if int_space c then int_lstrip r else t
  end.

(** An integer literal with its optional sign. *)
Definition int_signed (t : text) : option Z :=
  match t with
  | 43%N :: r => Z.of_N <$> int_literal r
  | 45%N :: r => (fun n => - Z.of_N n) <$> int_literal r
  | r => Z.of_N <$> int_literal r
  end.

(** [int(t)] for a [str]: [None] stands for its [ValueError]. *)
Definition py_int (t : text) : option Z :=
  int_signed (reverse (int_lstrip (reverse (int_lstrip t)))).

End Int.

(** ** UTF-8 *)

Definition continuation (b : N) : bool := ((0x80 <=? b) && (b <=? 0xBF))%N.

(** [bytes.decode('utf-8')] in strict mode, on the byte values: overlong
    forms, surrogates and values above U+10FFFF are refused. *)
Fixpoint utf8_decode (b : list N) : option text :=
  match b with
  | [] => Some []
  | b0 :: r =>
      if (b0 <? 0x80)%N then cons b0 <$> utf8_decode r
      else if (b0 <? 0xC2)%N then None
      else if (b0 <? 0xE0)%N then
        match r with
        | b1 :: r' =>
            if continuation b1
            then cons ((b0 - 0xC0) * 64 + (b1 - 0x80))%N <$> utf8_decode r'
            else None
        | _ => None
        end
      else if (b0 <? 0xF0)%N then
        match r with
        | b1 :: b2 :: r' =>
            if continuation b1 && continuation b2
               && negb ((b0 =? 0xE0) && (b1 <? 0xA0))%N
               && negb ((b0 =? 0xED) && (0x9F <? b1))%N
            then cons ((b0 - 0xE0) * 4096 + (b1 - 0x80) * 64 + (b2 - 0x80))%N
                   <$> utf8_decode r'
            else None
        | _ => None
        end
      else if (b0 <? 0xF5)%N then
        match r with
        | b1 :: b2 :: b3 :: r' =>
            if continuation b1 && continuation b2 && continuation b3
               && negb ((b0 =? 0xF0) && (b1 <? 0x90))%N
               && negb ((b0 =? 0xF4) && (0x8F <? b1))%N
            then cons ((b0 - 0xF0) * 262144 + (b1 - 0x80) * 4096
                       + (b2 - 0x80) * 64 + (b3 - 0x80))%N
                   <$> utf8_decode r'
            else None
        | _ => None
        end
      else None
  end.

Definition byte_of_N (n : N) : byte := byte_of_ascii (ascii_of_N n).

(** The UTF-8 bytes of one code point. *)
Definition utf8_encode_char (c : N) : list byte :=
  byte_of_N <$>
    (if (c <? 0x80)%N then [c]
     else if (c <? 0x800)%N then [0xC0 + c / 64; 0x80 + c mod 64]
     else if (c <? 0x10000)%N then
       [0xE0 + c / 4096; 0x80 + (c / 64) mod 64; 0x80 + c mod 64]
     else [0xF0 + c / 262144; 0x80 + (c / 4096) mod 64;
           0x80 + (c / 64) mod 64; 0x80 + c mod 64])%N.

(** [t.encode('utf-8')] *)
Definition utf8_encode (t : text) : list byte := t ≫= utf8_encode_char.

(** [s.decode('utf-8')] *)
Definition decode (s : list byte) : result text :=
  match utf8_decode (Byte.to_N <$> s) with
  | Some t => Ok t
  | None => Raise UnicodeDecodeError
  end.

(** ** Effects: a state and exception monad *)

Definition SE (S A : Type) : Type := S → S * result A.

#[global] Instance se_ret {S} : MRet (SE S) := fun A a s => (s, Ok a).
#[global] Instance se_bind {S} : MBind (SE S) := fun A B f m s =>
  match m s with
  | (s', Ok a) => f a s'
  | (s', Raise e) => (s', Raise e)
  end.

Definition raise {S A} (e : exn) : SE S A := fun s => (s, Raise e).
Definition gets {S A} (f : S → A) : SE S A := fun s => (s, Ok (f s)).
Definition modify {S} (f : S → S) : SE S unit := fun s => (f s, Ok tt).

(** [for x in xs: body] *)
Fixpoint for_each {S A} (xs : list A) (body : A → SE S unit) : SE S unit :=
  match xs with
  | [] => mret tt
  | x :: r => body x ≫= fun _ => for_each r body
  end.

(** ** The Serializer: [write_megam_file] *)

(** What a stream's [write] method receives: a [str] or a [bytes]. *)
Inductive chunk : Type :=
  | Str (t : text)
  | Bytes (b : list byte).

(** The caller's stream, seen as the sequence of the objects written to it.
    Its [write] is taken to succeed. *)
Definition stream_write (v : chunk) : SE (list chunk) unit :=
  fun s => (s ++ [v], Ok tt).

(** A stream object as [write_megam_file] uses it: the effect of
    [stream.write(s)] for a [str]. *)
Definition writer : Type := text → SE (list chunk) unit.

(** The stream as the caller gave it. *)
Definition plain_stream : writer := fun s => stream_write (Str s).

(** [class BytesWriter], wrapped around the caller's stream. *)
Definition BytesWriter : writer := fun s => stream_write (Bytes (utf8_encode s)).

(** The stream [write_megam_file] writes to, for each value of
    [bin_stream]. *)
Definition stream_of (bin_stream : bool) : writer :=
  if bin_stream then BytesWriter else plain_stream.

(** The feature encoding ([MaxentFeatureEncodingI]): [labels()], [encode()]
    and, when the object has one, [cost()].  Feature ids and feature values
    are integers. *)
Record Encoding (FS L C : Type) : Type := {
  labels : list L;
  encode : FS → L → list (Z * Z);
  cost : option (FS → L → L → C);
}.
Arguments labels {FS L C} _.
Arguments encode {FS L C} _ _ _.
Arguments cost {FS L C} _.

(** [enumerate(l)] *)
Definition enumerate {A} (l : list A) : list (nat * A) := imap pair l.

(** [dict(items)]: a later item replaces an earlier one with the same key. *)
Definition dict `{Countable K} {V} (items : list (K * V)) : gmap K V :=
  foldl (fun m kv => <[kv.1 := kv.2]> m) ∅ items.

Definition always_on_msg : string :=
  "MEGAM classifier requires the use of an always-on feature.".
Definition binary_msg : string :=
  "If bernoulli=True, then allfeatures must be binary.".

(** The body of the loop of [_write_megam_features]. *)
Definition write_feature (stream : writer) (bernoulli : bool)
    (f : Z * Z) : SE (list chunk) unit :=
  let '(fid, fval) := f in
  if bernoulli then
    if fval =? 1 then stream (txt " " ++ py_str fid)
    else if negb (fval =? 0) then raise (ValueError binary_msg)
    else mret tt
  else stream (txt " " ++ py_str fid ++ txt " " ++ py_str fval).

Definition _write_megam_features (vector : list (Z * Z)) (stream : writer)
    (bernoulli : bool) : SE (list chunk) unit :=
  if bool_decide (vector = []) then raise (ValueError always_on_msg)
  else for_each vector (write_feature stream bernoulli).

Section Write.
Context {FS L C : Type} `{Countable L} `{PyStr C}.

(** [labelnum] of [write_megam_file]. *)
Definition labelnum_of (labels : list L) : gmap L nat :=
  dict ((fun il => (il.2, il.1)) <$> enumerate labels).

(** The first write of an instance: the costs of all labels, or the number
    of the instance's label. *)
Definition write_header (encoding : Encoding FS L C) (labels : list L)
    (labelnum : gmap L nat) (stream : writer) (featureset : FS) (label : L)
    : SE (list chunk) unit :=
  match cost encoding with
  | Some cost =>
      stream (join (txt ":")
                ((fun l => py_str (cost featureset label l)) <$> labels))
  | None =>
      match labelnum !! label with
      | Some i => stream (py_str i)
      | None => raise KeyError
      end
  end.

(** The feature blocks of an instance: the block of its own label, or in
    the explicit format a separator and a block for every label. *)
Definition write_blocks (encoding : Encoding FS L C) (labels : list L)
    (stream : writer) (bernoulli explicit : bool) (featureset : FS)
    (label : L) : SE (list chunk) unit :=
  if negb explicit then
    _write_megam_features (encode encoding featureset label) stream bernoulli
  else
    for_each labels (fun l =>
      stream (txt " #") ≫= fun _ =>
      _write_megam_features (encode encoding featureset l) stream bernoulli).

(** The body of the loop of [write_megam_file]. *)
Definition write_instance (encoding : Encoding FS L C) (labels : list L)
    (labelnum : gmap L nat) (stream : writer) (bernoulli explicit : bool)
    (tok : FS * L) : SE (list chunk) unit :=
  let '(featureset, label) := tok in
  write_header encoding labels labelnum stream featureset label ≫= fun _ =>
  write_blocks encoding labels stream bernoulli explicit featureset label
  ≫= fun _ =>
  stream [newline].

Definition write_megam_file (train_toks : list (FS * L))
    (encoding : Encoding FS L C) (bernoulli explicit bin_stream : bool)
    : SE (list chunk) unit :=
  let labels := labels encoding in
  let labelnum := labelnum_of labels in
  let stream := stream_of bin_stream in
  for_each train_toks
    (write_instance encoding labels labelnum stream bernoulli explicit).

End Write.

(** ** The Deserializer: [parse_megam_weights] *)

(** [numpy.zeros(n, 'd')] *)
Definition numpy_zeros (n : Z) : result (list float) :=
  if n <? 0 then Raise (ValueError "negative dimensions are not allowed")
  else Ok (replicate (Z.to_nat n) 0%float).

(** [a[i] = x] on a one-dimensional array: a negative index counts from the
    end, and an index outside [-len(a) <= i < len(a)] is an [IndexError]. *)
Definition numpy_setitem (a : list float) (i : Z) (x : float)
    : result (list float) :=
  let n := Z.of_nat (length a) in
  if (0 <=? i) && (i <? n) then Ok (<[Z.to_nat i := x]> a)
  else if (- n <=? i) && (i <? 0) then Ok (<[Z.to_nat (n + i) := x]> a)
  else Raise IndexError.

(** A loop that updates a value and may raise. *)
Fixpoint fold_result {A B} (f : B → A → result B) (b : B) (xs : list A)
    : result B :=
  match xs with
  | [] => Ok b
  | x :: r => f b x ≫= fun b' => fold_result f b' r
  end.

Section Parse.
Context `{PyHost}.

(** The body of the loop of [parse_megam_weights]; the right-hand side of
    the assignment is evaluated before the index. *)
Definition store_line (weights : list float) (line : text)
    : result (list float) :=
  if bool_decide (strip line = []) then Ok weights
  else match split line with
       | [fid; weight] =>
           match py_float weight with
           | None => Raise (ValueError "could not convert string to float")
           | Some x =>
               match py_int fid with
               | None => Raise (ValueError "invalid literal for int()")
               | Some i => numpy_setitem weights i x
               end
           end
       | _ => Raise (ValueError "wrong number of values to unpack")
       end.

Definition parse_megam_weights (s : list byte) (features_count : Z)
    (explicit : bool) : result (list float) :=
  if negb numpy_installed then
    Raise (ValueError "This function requires that numpy be installed")
  else if negb explicit then
    Raise (AssertionError "non-explicit not supported yet")
  else
    decode s ≫= fun t =>
    let lines := split_on newline (strip t) in
    numpy_zeros features_count ≫= fun weights =>
    fold_result store_line weights lines.

End Parse.

(** ** The Locator and the Invoker: [config_megam] and [call_megam] *)

(** What a finished child process leaves behind. *)
Record process : Type := {
  child_stdout : list byte;
  child_stderr : list byte;
  returncode : Z;
}.

(** The collaborators of this module that live outside it.
    - [find_binary] is [nltk.internals.find_binary], called with a name, an
      optional path, names of environment variables, file names and a URL;
      it gives what it prints and either the path found or its exception.
    - [run cmd] is the operating system running [cmd] to completion, or the
      exception [subprocess.Popen] raises when it cannot start it. *)
Class System := {
  find_binary :
    text → option text → list text → list text → text → list text * result text;
  run : list text → result process;
}.

(** The state around the module: its global [_megam_bin], what this process
    has written to [sys.stdout] and to [sys.stderr], the bytes its children
    wrote to the standard error they inherit, the commands started so far,
    and the arguments of the calls of [find_binary] so far. *)
Record World : Type := {
  _megam_bin : option text;
  sys_stdout : list text;
  sys_stderr : list text;
  inherited_stderr : list byte;
  spawned : list (list text);
  lookups : list (option text);
}.

Definition set_megam_bin (p : text) (w : World) : World :=
  {| _megam_bin := Some p; sys_stdout := sys_stdout w;
     sys_stderr := sys_stderr w; inherited_stderr := inherited_stderr w;
     spawned := spawned w; lookups := lookups w |}.

(** [print(t)]: the text and a newline on [sys.stdout]. *)
Definition print (t : text) : SE World unit := fun w =>
  ({| _megam_bin := _megam_bin w;
      sys_stdout := sys_stdout w ++ [t ++ [newline]];
      sys_stderr := sys_stderr w; inherited_stderr := inherited_stderr w;
      spawned := spawned w; lookups := lookups w |},
   Ok tt).

(** [str(None)] *)
Definition str_None (_ : unit) : text := txt "None".

Section Invoke.
Context `{System}.

(** What [find_binary] is asked by [config_megam]. *)
Definition lookup_megam (bin : option text) : list text * result text :=
  find_binary (txt "megam") bin [txt "MEGAM"; txt "MEGAMHOME"]
    [txt "megam.opt"; txt "megam"; txt "megam_686"; txt "megam_i686.opt"]
    (txt "http://www.cs.utah.edu/~hal/megam/").

(** The call of [find_binary] made by [config_megam]: it is recorded, and
    what it prints goes to [sys.stdout]. *)
Definition call_find_binary (bin : option text) : SE World text := fun w =>
  let '(printed, r) := lookup_megam bin in
  ({| _megam_bin := _megam_bin w; sys_stdout := sys_stdout w ++ printed;
      sys_stderr := sys_stderr w; inherited_stderr := inherited_stderr w;
      spawned := spawned w; lookups := lookups w ++ [bin] |}, r).

(** The global is assigned only once [find_binary] has returned. *)
Definition config_megam (bin : option text) : SE World unit :=
  call_find_binary bin ≫= fun p => modify (set_megam_bin p).

(** [subprocess.Popen(cmd, stdout=subprocess.PIPE)] followed by
    [communicate()]: only the standard output is piped, so the pair returned
    is the output and [None], and the child writes its standard error to
    the one it inherits. *)
Definition popen_communicate (cmd : list text)
    : SE World (list byte * unit * Z) := fun w =>
  match run cmd with
  | Raise e => (w, Raise e)
  | Ok p =>
      ({| _megam_bin := _megam_bin w; sys_stdout := sys_stdout w;
          sys_stderr := sys_stderr w;
          inherited_stderr := inherited_stderr w ++ child_stderr p;
          spawned := spawned w ++ [cmd]; lookups := lookups w |},
       Ok (child_stdout p, tt, returncode p))
  end.

(** The argument of [call_megam]: a single string, or a list of strings. *)
Inductive arguments : Type :=
  | ArgString (s : text)
  | ArgList (l : list text).

Definition call_megam (args : arguments) : SE World (list byte) :=
  match args with
  | ArgString _ => raise (TypeError "args should be a list of strings")
  | ArgList args =>
      gets _megam_bin ≫= fun bin =>
      (if bin is None then config_megam None else mret tt) ≫= fun _ =>
      gets _megam_bin ≫= fun bin =>
      match bin with
      | None => raise (TypeError "expected str, not NoneType")
      | Some bin => mret (bin :: args)
      end ≫= fun cmd =>
      popen_communicate cmd ≫= fun '(stdout, stderr, returncode) =>
      if negb (returncode =? 0) then
        print [] ≫= fun _ =>
        print (str_None stderr) ≫= fun _ =>
        raise (OSError "megam command failed!")
      else mret stdout
  end.

End Invoke.

(** Modelled from the spec: [nltk.internals.find_binary] is not among the
    sources.  The machine is described by its environment, by the paths that
    name an executable file, and by the directories of the search path.  An
    explicit path is used or refused on its own; otherwise the environment
    variables are tried in order, then every acceptable file name in every
    directory of the search path.  A path found is announced on the console,
    as the module's documentation shows. *)
Record Machine : Type := {
  environ : text → option text;
  executable : text → bool;
  search_path : list text;
}.

Definition found_msg (name p : text) : text :=
  txt "[Found " ++ name ++ txt ": " ++ p ++ txt "]" ++ [newline].

Definition candidates (m : Machine) (env_vars binary_names : list text)
    : list text :=
  omap (environ m) env_vars
  ++ (search_path m ≫= fun d => (fun b => d ++ txt "/" ++ b) <$> binary_names).

Definition find_binary_spec (m : Machine) (name : text)
    (path_to_bin : option text) (env_vars binary_names : list text)
    (url : text) : list text * result text :=
  match path_to_bin with
  | Some p =>
      if executable m p then ([found_msg name p], Ok p)
      else ([], Raise (LookupError "NLTK was unable to find the file"))
  | None =>
      match filter (fun p => executable m p = true)
                   (candidates m env_vars binary_names) with
      | p :: _ => ([found_msg name p], Ok p)
      | [] => ([], Raise (LookupError "NLTK was unable to find the file"))
      end
  end.

(** ** A host for closed examples

    [float] restricted to plain decimal literals, an optional sign, digits and
    an optional fraction, of at most fifteen digits: both the digits read as
    an integer and the power of ten are then exact binary64 values, and their
    correctly rounded quotient is the float nearest to the literal.  Other
    arguments are outside this fragment. *)

Definition float_of_N (n : N) : float :=
  PrimFloat.of_uint63 (Uint63.of_Z (Z.of_N n)).

Definition ascii_digits (t : text) : option N :=
  foldl (fun acc c =>
           acc ≫= fun a =>
           if ((48 <=? c) && (c <=? 57))%N then Some (10 * a + (c - 48))%N
           else None) (Some 0%N) t.

Definition plain_float_unsigned (t : text) : option float :=
  match split_on 46 t with
  | whole :: rest =>
      let frac := concat (take 1 rest) in
      if bool_decide (1 < length rest)%nat
         || bool_decide (whole ++ frac = [])
         || bool_decide (15 < length (whole ++ frac))%nat
      then None
      else ascii_digits (whole ++ frac) ≫= fun m =>
           Some (float_of_N m / float_of_N (10 ^ N.of_nat (length frac)))%float
  | [] => None
  end.

Definition plain_float (t : text) : option float :=
  match t with
  | 45%N :: r => PrimFloat.opp <$> plain_float_unsigned r
  | 43%N :: r => plain_float_unsigned r
  | _ => plain_float_unsigned t
  end.

Definition example_host : PyHost := {|
  numpy_installed := true;
  unicode_decimal := fun _ => None;
  py_float := plain_float;
|}.

(** A small encoding for closed examples: two labels, three features, no
    cost. *)
Definition example_encoding : Encoding nat nat Z := {|
  labels := [10; 20]%nat;
  encode := fun fs l => [(Z.of_nat fs, 1); (Z.of_nat l, 0); (7, 1)];
  cost := None;
|}.

(** The same with a cost, and with a value that is not binary for label 20
    and no feature at all for label 30. *)
Definition example_cost_encoding : Encoding nat nat Z := {|
  labels := [10; 20; 30]%nat;
  encode := fun fs l =>
    if (l =? 30)%nat then []
    else [(Z.of_nat fs, 1); (Z.of_nat l, if (l =? 20)%nat then 2 else 0)];
  cost := Some (fun fs l l' => Z.of_nat l - Z.of_nat l');
|}.

(** A machine for closed examples: [megam] is installed in [/usr/bin], the
    variable [MEGAM] names a file that is not there, and every command
    writes ["out"] and ["boom"] and fails unless it has no argument. *)
Definition example_machine : Machine := {|
  environ := fun v =>
    if bool_decide (v = txt "MEGAM") then Some (txt "/opt/megam") else None;
  executable := fun p => bool_decide (p = txt "/usr/bin/megam");
  search_path := [txt "/bin"; txt "/usr/bin"];
|}.

Definition example_system : System := {|
  find_binary := find_binary_spec example_machine;
  run := fun cmd =>
    Ok {| child_stdout := list_byte_of_string "out";
          child_stderr := list_byte_of_string "boom";
          returncode := if bool_decide (length cmd = 1%nat) then 0 else 1 |};
|}.

Definition example_world : World := {|
  _megam_bin := Some (txt "/usr/bin/megam");
  sys_stdout := [];
  sys_stderr := [];
  inherited_stderr := [];
  spawned := [];
  lookups := [];
|}.

(** ** The training file as the specification describes it *)

(** What the stream receives when [write_megam_file] writes the text [t]. *)
Definition chunk_of (bin_stream : bool) (t : text) : chunk :=
  if bin_stream then Bytes (utf8_encode t) else Str t.

(** A computation that writes the texts [log], in order, after what the
    stream already holds, and ends in [r]. *)
Definition emits {A} (bin_stream : bool) (m : SE (list chunk) A)
    (log : list text) (r : result A) : Prop :=
  ∀ s, m s = (s ++ (chunk_of bin_stream <$> log), r).

Definition binary_value (f : Z * Z) : Prop := f.2 = 0 ∨ f.2 = 1.

(** The tokens of one feature: its id when it fires (bernoulli), or its id
    and its value. *)
Definition feature_tokens (bernoulli : bool) (f : Z * Z) : list text :=
  if bernoulli then
    if f.2 =? 1 then [txt " " ++ str_int f.1] else []
  else [txt " " ++ str_int f.1 ++ txt " " ++ str_int f.2].

(** A feature block: the tokens of the features of a vector, in order. *)
Definition feature_block (bernoulli : bool) (vector : list (Z * Z))
    : list text :=
  vector ≫= feature_tokens bernoulli.

(** A vector that can be written: not empty and, in bernoulli mode, binary. *)
Definition block_ok (bernoulli : bool) (vector : list (Z * Z)) : Prop :=
  vector ≠ [] ∧ (bernoulli = true → Forall binary_value vector).

(** Why a feature block can fail, and what has been written of it then. *)
Definition block_error (bernoulli explicit : bool) (vector : list (Z * Z))
    (log : list text) (e : exn) : Prop :=
  (e = ValueError always_on_msg ∧ vector = []
   ∧ log = if explicit then [txt " #"] else [])
  ∨ (e = ValueError binary_msg ∧ bernoulli = true
     ∧ ¬ Forall binary_value vector).

(** A text that starts with whitespace. *)
Definition spaced (t : text) : Prop := ∃ c r, t = c :: r ∧ isspace c = true.

Section TrainingFile.
Context {FS L C : Type} `{Countable L} `{PyStr C}.

(** The number written for a label: its last position in the label order. *)
Definition label_index (encoding : Encoding FS L C) (label : L) : option nat :=
  labelnum_of (labels encoding) !! label.

(** The costs of all labels for an instance, joined by colons. *)
Definition cost_header (cost : FS → L → L → C) (encoding : Encoding FS L C)
    (tok : FS * L) : text :=
  join (txt ":") ((fun l => py_str (cost tok.1 tok.2 l)) <$> labels encoding).

(** An instance has a header when the encoding has a cost or the label is
    one of the encoding's. *)
Definition header_text (encoding : Encoding FS L C) (tok : FS * L)
    : option text :=
  match cost encoding with
  | Some cost => Some (cost_header cost encoding tok)
  | None => (fun i : nat => py_str i) <$> label_index encoding tok.2
  end.

(** The labels whose feature block is written for an instance. *)
Definition block_labels (encoding : Encoding FS L C) (explicit : bool)
    (tok : FS * L) : list L :=
  if explicit then labels encoding else [tok.2].

(** One feature block of an instance, with its separator in the explicit
    format. *)
Definition instance_block (encoding : Encoding FS L C)
    (bernoulli explicit : bool) (tok : FS * L) (l : L) : list text :=
  (if explicit then [txt " #"] else [])
  ++ feature_block bernoulli (encode encoding tok.1 l).

Definition instance_blocks (encoding : Encoding FS L C)
    (bernoulli explicit : bool) (tok : FS * L) : list (list text) :=
  instance_block encoding bernoulli explicit tok
    <$> block_labels encoding explicit tok.

(** An instance that can be written: it has a header and every vector
    written for it is fit. *)
Definition instance_ok (encoding : Encoding FS L C)
    (bernoulli explicit : bool) (tok : FS * L) : Prop :=
  is_Some (header_text encoding tok)
  ∧ Forall (fun l => block_ok bernoulli (encode encoding tok.1 l))
           (block_labels encoding explicit tok).

(** The line of an instance: header, blocks, newline. *)
Definition instance_line (encoding : Encoding FS L C)
    (bernoulli explicit : bool) (tok : FS * L) : list text :=
  default [] (header_text encoding tok)
  :: concat (instance_blocks encoding bernoulli explicit tok)
  ++ [[newline]].

(** Why writing an instance can fail. *)
Definition instance_error (encoding : Encoding FS L C)
    (bernoulli explicit : bool) (tok : FS * L) (e : exn) : Prop :=
  (e = KeyError ∧ header_text encoding tok = None)
  ∨ (is_Some (header_text encoding tok)
     ∧ ∃ l, l ∈ block_labels encoding explicit tok
            ∧ ((e = ValueError always_on_msg ∧ encode encoding tok.1 l = [])
               ∨ (e = ValueError binary_msg ∧ bernoulli = true
                  ∧ ¬ Forall binary_value (encode encoding tok.1 l)))).

End TrainingFile.

(** ** The weight file as the specification describes it *)

Section WeightFile.
Context `{PyHost}.

(** A blank line holds nothing but whitespace. *)
Definition blank (line : text) : Prop := Forall (fun c => isspace c = true) line.

(** A well-formed line for a vector of length [n]: two tokens, an index of
    the vector and a weight. *)
Definition well_formed (n : Z) (line : text) : Prop :=
  ∃ fid weight i x,
    split line = [fid; weight] ∧ py_int fid = Some i ∧ 0 <= i < n
    ∧ py_float weight = Some x.

Definition tokens_well_formed (n : Z) (toks : list text) : Prop :=
  ∃ fid weight i x,
    toks = [fid; weight] ∧ py_int fid = Some i ∧ 0 <= i < n
    ∧ py_float weight = Some x.

(** The index and the weight two numeric tokens name. *)
Definition tokens_entry (toks : list text) : option (Z * float) :=
  match toks with
  | [fid; weight] =>
      match py_int fid, py_float weight with
      | Some i, Some x => Some (i, x)
      | _, _ => None
      end
  | _ => None
  end.

Definition line_entry (line : text) : option (Z * float) :=
  tokens_entry (split line).

(** The entries of a text, line by line. *)
Definition entries (t : text) : list (Z * float) :=
  omap line_entry (split_on newline t).

(** The last weight given for index [k] after [init]. *)
Definition last_weight_from (k : Z) (init : float) (es : list (Z * float))
    : float :=
  foldl (fun acc e => if e.1 =? k then e.2 else acc) init es.

(** The last weight given for index [k], zero when there is none. *)
Definition last_weight (k : Z) (es : list (Z * float)) : float :=
  last_weight_from k 0%float es.

(** A line that cannot be stored in a vector of length [n]: it is not blank
    and has another number of tokens than two, or a token that is not
    numeric, or an index outside [-n <= i < n]. *)
Definition rejected (n : Z) (line : text) : Prop :=
  match split line with
  | [] => False
  | [fid; weight] =>
      py_float weight = None ∨ py_int fid = None
      ∨ ∃ i, py_int fid = Some i ∧ (i < - n ∨ n <= i)
  | _ => True
  end.

(** The tokens of the lines that are not blank. *)
Definition line_tokens (t : text) : list (list text) :=
  filter (fun toks => toks ≠ []) (split <$> split_on newline t).

(** [store_line] on the tokens of a line that is not blank. *)
Definition store_tokens (weights : list float) (toks : list text)
    : result (list float) :=
  match toks with
  | [fid; weight] =>
      match py_float weight with
      | None => Raise (ValueError "could not convert string to float")
      | Some x =>
          match py_int fid with
          | None => Raise (ValueError "invalid literal for int()")
          | Some i => numpy_setitem weights i x
          end
      end
  | _ => Raise (ValueError "wrong number of values to unpack")
  end.

End WeightFile.

(** ** Array positions, line counts and the resolved binary *)

(** The position an index names in an array of length [n]: a negative index
    counts from the end. *)
Definition array_position (n i : Z) : Z := if i <? 0 then n + i else i.

(** The entries of a text with every index replaced by the position it
    names in an array of length [n]. *)
Definition positions (n : Z) (es : list (Z * float)) : list (Z * float) :=
  (fun e => (array_position n e.1, e.2)) <$> es.

(** The number of newline characters of a text. *)
Definition newlines (t : text) : nat :=
  length (filter (fun c => c = newline) t).

(** A text of ASCII characters only. *)
Definition ascii_text (t : text) : Prop := Forall (fun c => c < 128)%N t.

Section Resolve.
Context `{System}.

(** The world once [call_megam] knows the path of the binary, or the
    exception of the search that was to find it. *)
Definition resolve (w : World) : World * result text :=
  match _megam_bin w with
  | Some bin => (w, Ok bin)
  | None =>
      match lookup_megam None with
      | (printed, Ok bin) =>
          ({| _megam_bin := Some bin; sys_stdout := sys_stdout w ++ printed;
              sys_stderr := sys_stderr w;
              inherited_stderr := inherited_stderr w; spawned := spawned w;
              lookups := lookups w ++ [None] |}, Ok bin)
      | (printed, Raise e) =>
          ({| _megam_bin := None; sys_stdout := sys_stdout w ++ printed;
              sys_stderr := sys_stderr w;
              inherited_stderr := inherited_stderr w; spawned := spawned w;
              lookups := lookups w ++ [None] |}, Raise e)
      end
  end.

End Resolve.

(** A machine without [megam]. *)
Definition bare_machine : Machine := {|
  environ := fun _ => None;
  executable := fun _ => false;
  search_path := [txt "/bin"];
|}.

Definition bare_system : System := {|
  find_binary := find_binary_spec bare_machine;
  run := fun cmd => Raise (OSError "No such file or directory");
|}.

Definition fresh_world : World := {|
  _megam_bin := None;
  sys_stdout := [];
  sys_stderr := [];
  inherited_stderr := [];
  spawned := [];
  lookups := [];
|}.

(** * Properties *)

(** ** Whitespace, [strip] and [split] *)

Lemma lstrip_blank (t : text) : blank t → lstrip t = [].
Proof.
  induction 1 as [|c r Hc _ IH]; simpl; [done|]. by rewrite Hc.
Qed.

Lemma lstrip_nil_blank (t : text) : lstrip t = [] → blank t.
Proof.
  induction t as [|c r IH]; simpl; [constructor|].
  destruct (isspace c) eqn:Hc; [|done].
  intros Hr. constructor; [done | by apply IH].
Qed.

(** [lstrip] removes a blank prefix and nothing else. *)
Lemma lstrip_decompose (t : text) :
  ∃ ws, blank ws ∧ t = ws ++ lstrip t.
Proof.
  induction t as [|c r (ws & Hws & Hr)]; simpl.
  - exists []. split; [constructor|done].
  - destruct (isspace c) eqn:Hc.
    + exists (c :: ws). split; [by constructor|]. simpl. by f_equal.
    + exists []. split; [constructor|done].
Qed.

Lemma blank_reverse (t : text) : blank t → blank (reverse t).
Proof. unfold blank. rewrite Forall_reverse. done. Qed.

Lemma rstrip_decompose (t : text) :
  ∃ ws, blank ws ∧ t = rstrip t ++ ws.
Proof.
  unfold rstrip. destruct (lstrip_decompose (reverse t)) as (ws & Hws & Ht).
  exists (reverse ws). split; [by apply blank_reverse|].
  rewrite <- reverse_app, <- Ht. by rewrite reverse_involutive.
Qed.

(** [strip] removes a blank prefix and a blank suffix. *)
Lemma strip_decompose (t : text) :
  ∃ ws1 ws2, blank ws1 ∧ blank ws2 ∧ t = ws1 ++ strip t ++ ws2.
Proof.
  destruct (lstrip_decompose t) as (ws1 & H1 & Ht).
  destruct (rstrip_decompose (lstrip t)) as (ws2 & H2 & Ht').
  exists ws1, ws2. split_and!; [done..|].
  unfold strip. by rewrite <- Ht'.
Qed.

Lemma strip_nil_blank (t : text) : strip t = [] ↔ blank t.
Proof.
  split.
  - intros Hs. destruct (strip_decompose t) as (ws1 & ws2 & H1 & H2 & Ht).
    rewrite Ht, Hs. unfold blank in *. rewrite !Forall_app. by repeat split.
  - intros Hb. unfold strip. by rewrite (lstrip_blank _ Hb).
Qed.

Lemma split_cons (c : N) (r : text) :
  split (c :: r) =
    if isspace c then split r
    else match r with
         | [] => [[c]]
         | c' :: _ =>
             if isspace c' then [c] :: split r
             else match split r with
                  | w :: ws => (c :: w) :: ws
                  | [] => [[c]]
                  end
         end.
Proof. by destruct r. Qed.

Arguments split : simpl never.

Lemma split_space (c : N) (t : text) : isspace c = true → split (c :: t) = split t.
Proof. intros Hc. by rewrite split_cons, Hc. Qed.

Lemma split_blank (t : text) : blank t → split t = [].
Proof.
  induction 1 as [|c r Hc _ IH]; [done|]. by rewrite split_space.
Qed.

Lemma split_nil_blank (t : text) : split t = [] → blank t.
Proof.
  induction t as [|c r IH]; [constructor|].
  rewrite split_cons. destruct (isspace c) eqn:Hc.
  - intros Hr. constructor; [done | by apply IH].
  - destruct r as [|c' r']; [done|].
    destruct (isspace c'); [done|]. by destruct (split (c' :: r')).
Qed.

Lemma split_blank_prefix (ws t : text) : blank ws → split (ws ++ t) = split t.
Proof.
  induction 1 as [|c r Hc _ IH]; [done|]. simpl app. by rewrite split_space.
Qed.

(** A token that starts the text ends at the first whitespace. *)
Lemma split_token (w : text) (c : N) (t : text) :
  w ≠ [] → Forall (fun a => isspace a = false) w → isspace c = true →
  split (w ++ c :: t) = w :: split t.
Proof.
  intros Hne Hw Hc. induction Hw as [|a w' Ha Hw' IH]; [done|].
  simpl app. rewrite split_cons, Ha.
  destruct w' as [|a' w'']; simpl.
  - by rewrite Hc, split_space.
  - apply Forall_cons_1 in Hw' as [Ha' _]. rewrite Ha'.
    simpl in IH. by rewrite IH.
Qed.

Lemma split_token_end (w : text) :
  w ≠ [] → Forall (fun a => isspace a = false) w → split w = [w].
Proof.
  intros Hne Hw. induction Hw as [|a w' Ha Hw' IH]; [done|].
  rewrite split_cons, Ha.
  destruct w' as [|a' w'']; [done|].
  apply Forall_cons_1 in Hw' as [Ha' Hw'']. rewrite Ha'.
  by rewrite IH.
Qed.

Lemma split_snoc_space (t : text) (c : N) :
  isspace c = true → split (t ++ [c]) = split t.
Proof.
  intros Hc. induction t as [|a r IH]; simpl app.
  - by rewrite split_space.
  - rewrite !(split_cons a). destruct (isspace a) eqn:Ha; [done|].
    destruct r as [|a' r']; simpl.
    + by rewrite Hc, split_space.
    + simpl in IH. by rewrite IH.
Qed.

Lemma split_blank_suffix (t ws : text) : blank ws → split (t ++ ws) = split t.
Proof.
  intros Hws. revert t. induction Hws as [|c r Hc _ IH]; intros t.
  - by rewrite app_nil_r.
  - rewrite (cons_middle c), app_assoc, IH. by apply split_snoc_space.
Qed.

(** ** Lines *)

Lemma split_on_not_nil (sep : N) (t : text) : split_on sep t ≠ [].
Proof.
  destruct t as [|c r]; simpl; [done|].
  destruct (c =? sep)%N; [done|]. by destruct (split_on sep r).
Qed.

Lemma split_on_cons_sep (sep : N) (r : text) :
  split_on sep (sep :: r) = [] :: split_on sep r.
Proof. simpl. by rewrite N.eqb_refl. Qed.

Lemma split_on_cons_other (sep c : N) (r : text) :
  c ≠ sep →
  ∃ l ls, split_on sep r = l :: ls ∧ split_on sep (c :: r) = (c :: l) :: ls.
Proof.
  intros Hc. simpl. apply N.eqb_neq in Hc. rewrite Hc.
  destruct (split_on sep r) as [|l ls] eqn:Hr.
  - by destruct (split_on_not_nil sep r).
  - by exists l, ls.
Qed.

Lemma split_on_snoc_sep (sep : N) (t : text) :
  split_on sep (t ++ [sep]) = split_on sep t ++ [[]].
Proof.
  induction t as [|c r IH]; simpl.
  - by rewrite N.eqb_refl.
  - destruct (c =? sep)%N; rewrite IH; [done|].
    destruct (split_on sep r) as [|l ls] eqn:Hr; [|done].
    by destruct (split_on_not_nil sep r).
Qed.

Lemma split_on_snoc_other (sep c : N) (t : text) :
  c ≠ sep →
  ∃ ls l, split_on sep t = ls ++ [l]
          ∧ split_on sep (t ++ [c]) = ls ++ [l ++ [c]].
Proof.
  intros Hc. induction t as [|a r (ls & l & Hr & Hrc)]; simpl.
  - apply N.eqb_neq in Hc. rewrite Hc. by exists [], [].
  - destruct (a =? sep)%N.
    + exists ([] :: ls), l. by rewrite Hr, Hrc.
    + rewrite Hr, Hrc. destruct ls as [|l0 ls0]; simpl.
      * by exists [], (a :: l).
      * by exists ((a :: l0) :: ls0), l.
Qed.

Lemma line_tokens_space_cons (c : N) (t : text) :
  isspace c = true → line_tokens (c :: t) = line_tokens t.
Proof.
  intros Hc. unfold line_tokens.
  destruct (decide (c = newline)) as [->|Hne].
  - rewrite split_on_cons_sep, fmap_cons.
    by rewrite filter_cons_False by (intros Hs; by apply Hs).
  - destruct (split_on_cons_other newline c t Hne) as (l & ls & -> & ->).
    rewrite !fmap_cons. by rewrite split_space.
Qed.

Lemma line_tokens_blank_prefix (ws t : text) :
  blank ws → line_tokens (ws ++ t) = line_tokens t.
Proof.
  induction 1 as [|c r Hc _ IH]; [done|].
  simpl app. by rewrite line_tokens_space_cons.
Qed.

Lemma line_tokens_snoc_space (t : text) (c : N) :
  isspace c = true → line_tokens (t ++ [c]) = line_tokens t.
Proof.
  intros Hc. unfold line_tokens.
  destruct (decide (c = newline)) as [->|Hne].
  - rewrite split_on_snoc_sep, fmap_app, filter_app. simpl.
    rewrite filter_cons_False by tauto. by rewrite filter_nil, app_nil_r.
  - destruct (split_on_snoc_other newline c t Hne) as (ls & l & -> & ->).
    rewrite !fmap_app, !filter_app. simpl. by rewrite split_snoc_space.
Qed.

Lemma line_tokens_blank_suffix (t ws : text) :
  blank ws → line_tokens (t ++ ws) = line_tokens t.
Proof.
  intros Hws. revert t. induction Hws as [|c r Hc _ IH]; intros t.
  - by rewrite app_nil_r.
  - rewrite (cons_middle c), app_assoc, IH. by apply line_tokens_snoc_space.
Qed.

(** Stripping the whole text changes no token of any line. *)
Lemma line_tokens_strip (t : text) : line_tokens (strip t) = line_tokens t.
Proof.
  destruct (strip_decompose t) as (ws1 & ws2 & H1 & H2 & Ht).
  rewrite Ht at 2.
  by rewrite line_tokens_blank_prefix, line_tokens_blank_suffix.
Qed.

(** ** The loop of [parse_megam_weights] *)

Section ParseFacts.
Context `{PyHost}.

Lemma store_line_tokens (weights : list float) (line : text) :
  store_line weights line =
    match split line with
    | [] => Ok weights
    | toks => store_tokens weights toks
    end.
Proof.
  unfold store_line. case_bool_decide as Hs.
  - apply strip_nil_blank, split_blank in Hs. by rewrite Hs.
  - destruct (split line) as [|fid toks] eqn:Hl; [|done].
    destruct Hs. by apply strip_nil_blank, split_nil_blank.
Qed.

Lemma fold_store_line (lines : list text) (weights : list float) :
  fold_result store_line weights lines =
  fold_result store_tokens weights
    (filter (fun toks => toks ≠ []) (split <$> lines)).
Proof.
  revert weights. induction lines as [|line lines IH]; intros weights; [done|].
  rewrite fmap_cons. cbn [fold_result]. rewrite store_line_tokens.
  destruct (split line) as [|fid toks] eqn:Hl.
  - rewrite filter_cons_False by (intros Hs; by apply Hs). apply IH.
  - rewrite filter_cons_True by done. cbn [fold_result].
    destruct (store_tokens weights (fid :: toks)); [apply IH|done].
Qed.

(** [parse_megam_weights] once the checks and the decoding have passed. *)
Lemma parse_megam_weights_decoded (s : list byte) (n : Z) (t : text) :
  numpy_installed = true → decode s = Ok t →
  parse_megam_weights s n true =
    numpy_zeros n ≫= fun weights =>
    fold_result store_tokens weights (line_tokens t).
Proof.
  intros Hnp Hs. unfold parse_megam_weights. rewrite Hnp, Hs. simpl.
  destruct (numpy_zeros n) as [weights|e]; simpl; [|done].
  by rewrite fold_store_line, <- line_tokens_strip.
Qed.

Lemma numpy_setitem_length (a : list float) (i : Z) (x : float) a' :
  numpy_setitem a i x = Ok a' → length a' = length a.
Proof.
  unfold numpy_setitem. intros Ha.
  repeat case_match; simplify_eq; by rewrite length_insert.
Qed.

Lemma store_tokens_length (weights : list float) toks weights' :
  store_tokens weights toks = Ok weights' → length weights' = length weights.
Proof.
  unfold store_tokens. intros Hs.
  repeat case_match; simplify_eq. by eapply numpy_setitem_length.
Qed.

(** A loop raises as soon as one of its steps must. *)
Lemma fold_result_raises {A B} (f : B → A → result B) (P : B → Prop)
    (xs : list A) (x : A) (b : B) :
  (∀ b a b', P b → f b a = Ok b' → P b') →
  P b → x ∈ xs → (∀ b, P b → raises (f b x)) →
  raises (fold_result f b xs).
Proof.
  intros Hinv Hb Hx Hraise. revert b Hb.
  induction xs as [|a xs IH]; intros b Hb; [by apply elem_of_nil in Hx|].
  simpl. apply elem_of_cons in Hx as [<-|Hx].
  - destruct (Hraise b Hb) as [e ->]. by exists e.
  - destruct (f b a) as [b'|e] eqn:Hf; simpl; [|by exists e].
    apply IH; [done|]. by eapply Hinv.
Qed.

End ParseFacts.

(** ** The weights read from well-formed lines *)

Lemma last_weight_from_absent (k : Z) (a : float) (es : list (Z * float)) :
  (∀ e, e ∈ es → e.1 ≠ k) → last_weight_from k a es = a.
Proof.
  revert a. induction es as [|e es IH]; intros a He; [done|].
  unfold last_weight_from in *. simpl.
  assert (e.1 ≠ k) as Hk by (apply He; left).
  apply Z.eqb_neq in Hk. rewrite Hk. apply IH.
  intros e' He'. apply He. by right.
Qed.

Lemma last_weight_from_last (k : Z) (a x : float) (es1 es2 : list (Z * float)) :
  (∀ e, e ∈ es2 → e.1 ≠ k) →
  last_weight_from k a (es1 ++ (k, x) :: es2) = x.
Proof.
  intros He. unfold last_weight_from. rewrite foldl_app. simpl.
  rewrite Z.eqb_refl. by apply last_weight_from_absent.
Qed.

Section WellFormed.
Context `{PyHost}.

Lemma entries_line_tokens (t : text) :
  entries t = omap tokens_entry (line_tokens t).
Proof.
  unfold entries, line_tokens.
  induction (split_on newline t) as [|line lines IH]; [done|].
  rewrite fmap_cons. cbn [omap list_omap]. rewrite IH. unfold line_entry.
  destruct (split line) as [|fid toks] eqn:Hl.
  - by rewrite filter_cons_False by (intros Hs; by apply Hs).
  - by rewrite filter_cons_True by done.
Qed.

Lemma store_tokens_well_formed (n : Z) (weights : list float) toks :
  length weights = Z.to_nat n → tokens_well_formed n toks →
  ∃ i x, tokens_entry toks = Some (i, x) ∧ 0 <= i < n
         ∧ store_tokens weights toks = Ok (<[Z.to_nat i := x]> weights).
Proof.
  intros Hlen (fid & weight & i & x & -> & Hi & Hr & Hx).
  exists i, x. simpl. rewrite Hi, Hx. split_and!; [done|lia..|].
  unfold numpy_setitem. rewrite Hlen.
  replace (0 <=? i) with true by (symmetry; apply Z.leb_le; lia).
  replace (i <? Z.of_nat (Z.to_nat n)) with true
    by (symmetry; apply Z.ltb_lt; lia).
  done.
Qed.

Lemma fold_store_well_formed (n : Z) (tokss : list (list text))
    (weights : list float) :
  length weights = Z.to_nat n →
  Forall (tokens_well_formed n) tokss →
  ∃ v, fold_result store_tokens weights tokss = Ok v
       ∧ length v = Z.to_nat n
       ∧ ∀ k a, 0 <= k < n → weights !! Z.to_nat k = Some a →
           v !! Z.to_nat k
           = Some (last_weight_from k a (omap tokens_entry tokss)).
Proof.
  intros Hlen Hall. revert weights Hlen.
  induction Hall as [|toks tokss Htoks _ IH]; intros weights Hlen.
  - exists weights. by split_and!.
  - destruct (store_tokens_well_formed n weights toks Hlen Htoks)
      as (i & x & He & Hi & Hs).
    destruct (IH (<[Z.to_nat i := x]> weights)) as (v & Hv & Hvl & Hvk).
    { by rewrite length_insert. }
    exists v. cbn [fold_result]. rewrite Hs. split_and!; [done..|].
    intros k a Hk Ha. simpl omap. rewrite He.
    unfold last_weight_from. simpl foldl.
    destruct (decide (i = k)) as [->|Hne].
    + rewrite Z.eqb_refl. apply Hvk; [done|].
      apply list_lookup_insert_eq. lia.
    + apply Z.eqb_neq in Hne as Hne'. rewrite Hne'. apply Hvk; [done|].
      rewrite list_lookup_insert_ne by lia. done.
Qed.

Lemma line_tokens_well_formed (n : Z) (t : text) :
  Forall (fun line => blank line ∨ well_formed n line) (split_on newline t) →
  Forall (tokens_well_formed n) (line_tokens t).
Proof.
  unfold line_tokens. intros Hall.
  induction Hall as [|line lines Hline _ IH]; [constructor|].
  rewrite fmap_cons. destruct Hline as [Hb|(fid & weight & i & x & Hs & Hrest)].
  - rewrite (split_blank _ Hb).
    by rewrite filter_cons_False by (intros Hs; by apply Hs).
  - rewrite Hs, filter_cons_True by done. constructor; [|done].
    by exists fid, weight, i, x.
Qed.

Lemma entries_in_range (n : Z) (t : text) (e : Z * float) :
  Forall (fun line => blank line ∨ well_formed n line) (split_on newline t) →
  e ∈ entries t → 0 <= e.1 < n.
Proof.
  intros Hall He. apply list_elem_of_omap in He as (line & Hline & He).
  rewrite Forall_forall in Hall. unfold line_entry in He.
  destruct (Hall line Hline) as [Hb|(fid & weight & i & x & Hs & Hi & Hr & Hx)].
  - by rewrite (split_blank _ Hb) in He.
  - rewrite Hs in He. simpl in He. rewrite Hi, Hx in He. by simplify_eq.
Qed.

Lemma replicate_lookup_zero (n : Z) (k : Z) :
  0 <= k < n → replicate (Z.to_nat n) 0%float !! Z.to_nat k = Some 0%float.
Proof. intros Hk. apply lookup_replicate_2. lia. Qed.

End WellFormed.

(** ** The Deserializer's contract *)

(** C1: with numpy present and [explicit] true, an output that decodes to
    blank lines and well-formed lines (two tokens, an index [0 <= i < n] and
    a weight) is parsed into a vector of length [n] in which an index holds
    the last weight given for it and an index no line names holds zero.  In
    particular the line ["3 0.5"] with [n = 5] gives the weight at index 3
    and zero elsewhere, and the empty output gives the zero vector. *)
Theorem parse_megam_weights_well_formed `{PyHost} :
  numpy_installed = true →
  (∀ (s : list byte) (n : Z) (t : text),
     0 <= n → decode s = Ok t →
     Forall (fun line => blank line ∨ well_formed n line)
            (split_on newline t) →
     ∃ v, parse_megam_weights s n true = Ok v
          ∧ length v = Z.to_nat n
          ∧ (∀ k x es1 es2,
               entries t = es1 ++ (k, x) :: es2 →
               (∀ e, e ∈ es2 → e.1 ≠ k) →
               v !! Z.to_nat k = Some x)
          ∧ (∀ k, 0 <= k < n → (∀ e, e ∈ entries t → e.1 ≠ k) →
               v !! Z.to_nat k = Some 0%float))
  ∧ (∀ x, py_float (txt "0.5") = Some x →
       parse_megam_weights (list_byte_of_string "3 0.5") 5 true
       = Ok [0; 0; 0; x; 0]%float)
  ∧ (∀ n, 0 <= n →
       parse_megam_weights [] n true = Ok (replicate (Z.to_nat n) 0%float)).
Proof.
  intros Hnp. split_and!.
  - intros s n t Hn Hs Hall.
    rewrite (parse_megam_weights_decoded s n t Hnp Hs).
    unfold numpy_zeros. replace (n <? 0) with false by lia.
    cbn [mbind result_bind].
    destruct (fold_store_well_formed n (line_tokens t)
                (replicate (Z.to_nat n) 0%float))
      as (v & Hv & Hlen & Hk).
    { apply length_replicate. }
    { by apply line_tokens_well_formed. }
    exists v. split_and!; [done..| |].
    + intros k x es1 es2 He Hlast.
      assert (0 <= k < n) as Hr.
      { apply (entries_in_range n t (k, x) Hall). rewrite He.
        apply elem_of_app. right. left. }
      rewrite (Hk k 0%float Hr (replicate_lookup_zero n k Hr)).
      rewrite <- entries_line_tokens, He.
      by rewrite last_weight_from_last.
    + intros k Hr Habs.
      rewrite (Hk k 0%float Hr (replicate_lookup_zero n k Hr)).
      rewrite <- entries_line_tokens.
      by rewrite last_weight_from_absent.
  - intros x Hx.
    rewrite (parse_megam_weights_decoded _ 5 (txt "3 0.5") Hnp) by done.
    change (line_tokens (txt "3 0.5")) with [[txt "3"; txt "0.5"]].
    cbn [numpy_zeros Z.ltb Z.compare mbind result_bind fold_result store_tokens].
    rewrite Hx. done.
  - intros n Hn.
    rewrite (parse_megam_weights_decoded _ n [] Hnp) by done.
    unfold numpy_zeros. replace (n <? 0) with false by lia. done.
Qed.

Lemma parse_megam_weights_well_formed_witness :
  numpy_installed (PyHost := example_host) = true
  ∧ 0 <= 5
  ∧ decode (list_byte_of_string "3 0.5

3 -1.25") = Ok (txt "3 0.5

3 -1.25")
  ∧ ∃ v, parse_megam_weights (H := example_host) (list_byte_of_string "3 0.5

3 -1.25") 5 true = Ok v
         ∧ length v = 5%nat
         ∧ v !! 3%nat = Some (-1.25)%float
         ∧ v !! 0%nat = Some 0%float.
Proof.
  split_and!; [reflexivity | lia | reflexivity |].
  destruct (parse_megam_weights_well_formed (H := example_host) eq_refl)
    as (Hgen & _ & _).
  destruct (Hgen (list_byte_of_string "3 0.5

3 -1.25") 5 (txt "3 0.5

3 -1.25")) as (v & Hv & Hlen & Hlast & Hzero); [lia | reflexivity | |].
  - repeat apply Forall_cons_2; [| |..|constructor].
    + right. exists (txt "3"), (txt "0.5"), 3, 0.5%float.
      split_and!; [reflexivity | reflexivity | lia | lia | reflexivity].
    + left. constructor.
    + right. exists (txt "3"), (txt "-1.25"), 3, (-1.25)%float.
      split_and!; [reflexivity | reflexivity | lia | lia | reflexivity].
  - exists v. split_and!; [done | done | |].
    + apply (Hlast 3 (-1.25)%float [(3, 0.5%float)] []); [reflexivity|].
      intros e He. by apply elem_of_nil in He.
    + apply (Hzero 0); [lia|].
      intros e He. change (entries (H := example_host) (txt "3 0.5

3 -1.25")) with [(3, 0.5%float); (3, (-1.25)%float)] in He.
      apply elem_of_cons in He as [->|He]; [done|].
      apply elem_of_cons in He as [->|He]; [done|].
      by apply elem_of_nil in He.
Defined.

(** C6, as the code has it: the parse fails whenever some line that is not
    blank has another number of tokens than two, a token that is not numeric,
    or an index outside [-n <= i < n]; no vector is returned then. *)
Theorem parse_megam_weights_rejects `{PyHost} (s : list byte) (n : Z)
    (explicit : bool) (t : text) (line : text) :
  decode s = Ok t → line ∈ split_on newline t → rejected n line →
  ∃ e, parse_megam_weights s n explicit = Raise e.
Proof.
  intros Hs Hline Hrej.
  destruct numpy_installed eqn:Hnp;
    [|unfold parse_megam_weights; rewrite Hnp; by eexists].
  destruct explicit;
    [|unfold parse_megam_weights; rewrite Hnp; by eexists].
  rewrite (parse_megam_weights_decoded s n t Hnp Hs).
  unfold numpy_zeros. destruct (n <? 0) eqn:Hn; [by eexists|].
  cbn [mbind result_bind]. apply Z.ltb_ge in Hn.
  apply (fold_result_raises store_tokens
           (fun w => length w = Z.to_nat n) _ (split line)).
  - intros w toks w' Hw Hst. by rewrite (store_tokens_length _ _ _ Hst).
  - apply length_replicate.
  - unfold line_tokens. apply list_elem_of_filter. split.
    + intros Hnil. unfold rejected in Hrej. by rewrite Hnil in Hrej.
    + by apply list_elem_of_fmap_2.
  - intros w Hw. unfold rejected in Hrej. unfold store_tokens.
    destruct (split line) as [|fid [|weight [|? ?]]]; [done|by eexists| |by eexists].
    destruct (py_float weight) as [x|]; [|by eexists].
    destruct (py_int fid) as [i|]; [|by eexists].
    destruct Hrej as [?|[?|(i' & ? & Hi)]]; [done..|]. simplify_eq.
    unfold numpy_setitem. rewrite Hw.
    destruct Hi as [Hi|Hi].
    + replace (0 <=? i') with false by lia.
      replace (- Z.of_nat (Z.to_nat n) <=? i') with false
        by (symmetry; apply Z.leb_gt; lia).
      by eexists.
    + replace (i' <? Z.of_nat (Z.to_nat n)) with false
        by (symmetry; apply Z.ltb_ge; lia).
      replace (i' <? 0) with false by lia.
      rewrite !andb_false_r. by eexists.
Qed.

Lemma parse_megam_weights_rejects_witness :
  decode (list_byte_of_string "7 0.5") = Ok (txt "7 0.5")
  ∧ txt "7 0.5" ∈ split_on newline (txt "7 0.5")
  ∧ rejected (H := example_host) 5 (txt "7 0.5")
  ∧ ∃ e, parse_megam_weights (H := example_host)
           (list_byte_of_string "7 0.5") 5 true = Raise e.
Proof.
  assert (rejected (H := example_host) 5 (txt "7 0.5")) as Hrej.
  { right. right. exists 7. split; [reflexivity | lia]. }
  split_and!; [reflexivity | left | done |].
  apply (parse_megam_weights_rejects (H := example_host)
           _ 5 true (txt "7 0.5") (txt "7 0.5")); [reflexivity | left | done].
Defined.

(** An index in [-n <= i < 0] is not refused: it counts from the end of the
    vector. *)
Lemma parse_megam_weights_negative_index :
  split (txt "-1 0.5") = [txt "-1"; txt "0.5"]
  ∧ py_int (H := example_host) (txt "-1") = Some (-1)
  ∧ -1 < 0
  ∧ parse_megam_weights (H := example_host)
      (list_byte_of_string "-1 0.5") 5 true
    = Ok [0; 0; 0; 0; 0.5]%float.
Proof. split_and!; [reflexivity | reflexivity | lia | reflexivity]. Qed.

(** ** Computations that only append to the stream *)

Lemma emits_stream (bin : bool) (t : text) :
  emits bin (stream_of bin t) [t] (Ok tt).
Proof. intros s. by destruct bin. Qed.

Lemma emits_ret {A} (bin : bool) (a : A) : emits bin (mret a) [] (Ok a).
Proof. intros s. simpl. by rewrite app_nil_r. Qed.

Lemma emits_raise {A} (bin : bool) (e : exn) :
  emits (A := A) bin (raise e) [] (Raise e).
Proof. intros s. unfold raise. by rewrite app_nil_r. Qed.

Lemma emits_bind_ok {A B} (bin : bool) (m : SE (list chunk) A)
    (f : A → SE (list chunk) B) l1 a l2 r :
  emits bin m l1 (Ok a) → emits bin (f a) l2 r →
  emits bin (m ≫= f) (l1 ++ l2) r.
Proof.
  intros Hm Hf s. unfold mbind, se_bind. rewrite Hm, Hf.
  by rewrite fmap_app, app_assoc.
Qed.

Lemma emits_bind_raise {A B} (bin : bool) (m : SE (list chunk) A)
    (f : A → SE (list chunk) B) l1 e :
  emits bin m l1 (Raise e) → emits bin (m ≫= f) l1 (Raise e).
Proof. intros Hm s. unfold mbind, se_bind. by rewrite Hm. Qed.

(** What a computation emits is determined by the computation. *)
Lemma emits_result {A} (bin : bool) (m : SE (list chunk) A) l1 r1 l2 r2 :
  emits bin m l1 r1 → emits bin m l2 r2 → r1 = r2.
Proof. intros H1 H2. specialize (H1 []). rewrite H2 in H1. by simplify_eq. Qed.

Section Loops.
Context {A : Type} (bin : bool) (body : A → SE (list chunk) unit).

(** A loop whose steps only append only appends, whatever its outcome;
    a property of every text written by a step holds of every text
    written by the loop. *)
Lemma for_each_emits (Q : text → Prop) (xs : list A) :
  (∀ x, x ∈ xs → ∃ log r, Forall Q log ∧ emits bin (body x) log r) →
  ∃ log r, Forall Q log ∧ emits bin (for_each xs body) log r.
Proof.
  induction xs as [|x xs IH]; intros Hbody.
  - exists [], (Ok tt). split; [constructor | apply emits_ret].
  - destruct (Hbody x) as (l1 & r1 & HQ1 & H1); [left|].
    destruct IH as (l2 & r2 & HQ2 & H2).
    { intros y Hy. apply Hbody. by right. }
    destruct r1 as [[]|e].
    + exists (l1 ++ l2), r2. split; [by apply Forall_app|].
      by eapply emits_bind_ok.
    + exists l1, (Raise e). split; [done|]. by apply emits_bind_raise.
Qed.

(** Either every step of a loop succeeds, or the loop stops at the first
    step that does not, with the exception of that step. *)
Lemma for_each_cases (P : A → Prop) (E : A → list text → exn → Prop)
    (g : A → list text) (xs : list A) :
  (∀ x, x ∈ xs →
     (P x ∧ emits bin (body x) (g x) (Ok tt))
     ∨ (¬ P x ∧ ∃ log e, E x log e ∧ emits bin (body x) log (Raise e))) →
  (Forall P xs ∧ emits bin (for_each xs body) (xs ≫= g) (Ok tt))
  ∨ (∃ pre x post log e,
       xs = pre ++ x :: post ∧ Forall P pre ∧ ¬ P x ∧ E x log e
       ∧ emits bin (for_each xs body) ((pre ≫= g) ++ log) (Raise e)).
Proof.
  induction xs as [|x xs IH]; intros Hbody.
  - left. split; [constructor | apply emits_ret].
  - destruct (Hbody x) as [[HP Hx]|(HnP & log & e & HE & Hx)]; [left| |].
    + destruct IH as [[Hall Hxs]|(pre & y & post & log & e & -> & Hpre & HnP & HE & Hxs)].
      { intros y Hy. apply Hbody. by right. }
      * left. split; [by constructor|]. simpl.
        by eapply emits_bind_ok.
      * right. exists (x :: pre), y, post, log, e.
        split_and!; [done | by constructor | done | done |].
        simpl. rewrite <- app_assoc. by eapply emits_bind_ok.
    + right. exists [], x, xs, log, e. split_and!; [done | constructor | done..|].
      simpl. by apply emits_bind_raise.
Qed.

(** A loop after a prefix of successful steps. *)
Lemma for_each_prefix (g : A → list text) (pre rest : list A) l r :
  (∀ x, x ∈ pre → emits bin (body x) (g x) (Ok tt)) →
  emits bin (for_each rest body) l r →
  emits bin (for_each (pre ++ rest) body) ((pre ≫= g) ++ l) r.
Proof.
  intros Hpre Hrest. induction pre as [|x pre IH]; [done|].
  simpl. rewrite <- app_assoc. eapply emits_bind_ok.
  - apply Hpre. left.
  - apply IH. intros y Hy. apply Hpre. by right.
Qed.

End Loops.

(** ** Feature blocks *)

Lemma write_feature_cases (bin bernoulli : bool) (f : Z * Z) :
  ((bernoulli = true → binary_value f)
   ∧ emits bin (write_feature (stream_of bin) bernoulli f)
       (feature_tokens bernoulli f) (Ok tt))
  ∨ (¬ (bernoulli = true → binary_value f)
     ∧ emits bin (write_feature (stream_of bin) bernoulli f) []
         (Raise (ValueError binary_msg))).
Proof.
  destruct f as [fid fval]. unfold write_feature, feature_tokens, binary_value.
  simpl. destruct bernoulli.
  - destruct (fval =? 1) eqn:H1.
    + left. split; [intros _; right; lia | apply emits_stream].
    + destruct (fval =? 0) eqn:H0; simpl.
      * left. split; [intros _; left; lia | apply emits_ret].
      * right. split; [|apply emits_raise]. intros Hb.
        destruct (Hb eq_refl); lia.
  - left. split; [done | apply emits_stream].
Qed.

Lemma write_feature_spaced (bin bernoulli : bool) (f : Z * Z) :
  ∃ log r, Forall spaced log
           ∧ emits bin (write_feature (stream_of bin) bernoulli f) log r.
Proof.
  destruct (write_feature_cases bin bernoulli f) as [[_ Hf]|[_ Hf]].
  - eexists _, _. split; [|exact Hf].
    destruct f as [fid fval]. unfold feature_tokens. simpl.
    destruct bernoulli; [destruct (fval =? 1)|]; repeat constructor;
      by eexists _, _.
  - eexists _, _. split; [|exact Hf]. constructor.
Qed.

(** [_write_megam_features] writes the block of a fit vector; it refuses an
    empty vector before writing anything, and in bernoulli mode it stops at
    the first value that is not binary. *)
Lemma write_megam_features_cases (bin bernoulli : bool) (vector : list (Z * Z)) :
  (block_ok bernoulli vector
   ∧ emits bin (_write_megam_features vector (stream_of bin) bernoulli)
       (feature_block bernoulli vector) (Ok tt))
  ∨ (vector = []
     ∧ emits bin (_write_megam_features vector (stream_of bin) bernoulli) []
         (Raise (ValueError always_on_msg)))
  ∨ (bernoulli = true
     ∧ ∃ pre f post,
         vector = pre ++ f :: post ∧ Forall binary_value pre
         ∧ ¬ binary_value f
         ∧ emits bin (_write_megam_features vector (stream_of bin) bernoulli)
             (feature_block bernoulli pre) (Raise (ValueError binary_msg))).
Proof.
  unfold _write_megam_features. case_bool_decide as Hv.
  { right. left. split; [done | apply emits_raise]. }
  destruct (for_each_cases bin (write_feature (stream_of bin) bernoulli)
              (fun f => bernoulli = true → binary_value f)
              (fun _ log e => log = [] ∧ e = ValueError binary_msg)
              (feature_tokens bernoulli) vector)
    as [[Hall Hw]|(pre & f & post & log & e & -> & Hpre & Hf & [-> ->] & Hw)].
  - intros f _. destruct (write_feature_cases bin bernoulli f) as [?|[? ?]];
      [by left | right]. split; [done|]. by eexists _, _.
  - left. split; [|done]. split; [done|]. intros Hb.
    eapply Forall_impl; [exact Hall|]. auto.
  - right. right. destruct bernoulli; [|by destruct Hf].
    split; [done|]. exists pre, f, post. split_and!; [done | | tauto |].
    + eapply Forall_impl; [exact Hpre|]. auto.
    + by rewrite app_nil_r in Hw.
Qed.

Lemma write_megam_features_spaced (bin bernoulli : bool) (vector : list (Z * Z)) :
  ∃ log r, Forall spaced log
           ∧ emits bin (_write_megam_features vector (stream_of bin) bernoulli)
               log r.
Proof.
  unfold _write_megam_features. case_bool_decide.
  - exists [], (Raise (ValueError always_on_msg)).
    split; [constructor | apply emits_raise].
  - apply for_each_emits. intros f _. apply write_feature_spaced.
Qed.

(** ** Instances *)

Lemma concat_fmap_bind {A B} (g : A → list B) (l : list A) :
  concat (g <$> l) = l ≫= g.
Proof. induction l as [|x l IH]; [done|]. by rewrite fmap_cons, bind_cons, <- IH. Qed.

Section InstanceFacts.
Context {FS L C : Type} `{Countable L} `{PyStr C}.
Context (bin : bool) (encoding : Encoding FS L C) (bernoulli explicit : bool).

Lemma write_block_cases (tok : FS * L) (l : L)
    (m : SE (list chunk) unit) :
  m = (if explicit
       then stream_of bin (txt " #") ≫= fun _ =>
            _write_megam_features (encode encoding tok.1 l) (stream_of bin)
              bernoulli
       else _write_megam_features (encode encoding tok.1 l) (stream_of bin)
              bernoulli) →
  (block_ok bernoulli (encode encoding tok.1 l)
   ∧ emits bin m (instance_block encoding bernoulli explicit tok l) (Ok tt))
  ∨ (¬ block_ok bernoulli (encode encoding tok.1 l)
     ∧ ∃ log e, block_error bernoulli explicit (encode encoding tok.1 l) log e
                ∧ emits bin m log (Raise e)).
Proof.
  intros ->. unfold instance_block, block_error.
  destruct (write_megam_features_cases bin bernoulli (encode encoding tok.1 l))
    as [[Hok Hw]|[[Hnil Hw]|(Hb & pre & f & post & Hv & Hpre & Hf & Hw)]].
  - left. split; [done|]. destruct explicit; [|done].
    eapply (emits_bind_ok _ _ _ [_]); [apply emits_stream | done].
  - right. split; [by intros [? _]|].
    exists (if explicit then [txt " #"] else []), (ValueError always_on_msg).
    split; [by left|]. destruct explicit; [|done].
    eapply (emits_bind_ok _ _ _ [_] _ []); [apply emits_stream | done].
  - right. split.
    { intros [_ Hall]. specialize (Hall Hb). rewrite Hv in Hall.
      apply Forall_app in Hall as [_ Hall].
      by apply Forall_cons_1 in Hall as [? _]. }
    assert (¬ Forall binary_value (encode encoding tok.1 l)) as Hnb.
    { rewrite Hv. intros Hall. apply Forall_app in Hall as [_ Hall].
      by apply Forall_cons_1 in Hall as [? _]. }
    destruct explicit.
    + eexists _, _. split; [by right|].
      eapply (emits_bind_ok _ _ _ [_]); [apply emits_stream | done].
    + eexists _, _. split; [by right | done].
Qed.

Lemma write_blocks_cases (tok : FS * L) :
  (Forall (fun l => block_ok bernoulli (encode encoding tok.1 l))
          (block_labels encoding explicit tok)
   ∧ emits bin (write_blocks encoding (labels encoding) (stream_of bin)
                  bernoulli explicit tok.1 tok.2)
       (concat (instance_blocks encoding bernoulli explicit tok)) (Ok tt))
  ∨ (∃ pre l post log e,
       block_labels encoding explicit tok = pre ++ l :: post
       ∧ Forall (fun l => block_ok bernoulli (encode encoding tok.1 l)) pre
       ∧ ¬ block_ok bernoulli (encode encoding tok.1 l)
       ∧ block_error bernoulli explicit (encode encoding tok.1 l) log e
       ∧ emits bin (write_blocks encoding (labels encoding) (stream_of bin)
                      bernoulli explicit tok.1 tok.2)
           ((pre ≫= instance_block encoding bernoulli explicit tok) ++ log)
           (Raise e)).
Proof.
  unfold write_blocks, instance_blocks, block_labels.
  rewrite concat_fmap_bind. destruct explicit eqn:He; simpl negb; cbv iota.
  - apply (for_each_cases bin _
             (fun l => block_ok bernoulli (encode encoding tok.1 l))
             (fun l => block_error bernoulli true (encode encoding tok.1 l))
             (instance_block encoding bernoulli true tok)).
    intros l _. rewrite <- He. apply write_block_cases. by rewrite He.
  - destruct (write_block_cases tok tok.2 _ eq_refl)
      as [[Hok Hw]|(Hnok & log & e & He' & Hw)]; rewrite He in *.
    + left. split; [by apply Forall_singleton|]. by rewrite bind_singleton.
    + right. exists [], tok.2, [], log, e.
      split; [done|]. split; [apply Forall_nil_2|]. split; [done|].
      split; [done|]. by rewrite app_nil_l.
Qed.

Lemma write_blocks_spaced (tok : FS * L) :
  ∃ log r, Forall spaced log
           ∧ emits bin (write_blocks encoding (labels encoding) (stream_of bin)
                          bernoulli explicit tok.1 tok.2) log r.
Proof.
  unfold write_blocks. destruct explicit; simpl negb; cbv iota.
  - apply for_each_emits. intros l _.
    destruct (write_megam_features_spaced bin bernoulli
                (encode encoding tok.1 l)) as (log & r & Hlog & Hw).
    exists ([txt " #"] ++ log), r. split.
    + apply Forall_app. split; [|done].
      apply Forall_singleton. by eexists _, _.
    + eapply emits_bind_ok; [apply emits_stream | done].
  - apply write_megam_features_spaced.
Qed.

Lemma write_header_cases (tok : FS * L) :
  (∃ h, header_text encoding tok = Some h
        ∧ emits bin (write_header encoding (labels encoding)
                       (labelnum_of (labels encoding)) (stream_of bin)
                       tok.1 tok.2) [h] (Ok tt))
  ∨ (header_text encoding tok = None
     ∧ emits bin (write_header encoding (labels encoding)
                    (labelnum_of (labels encoding)) (stream_of bin)
                    tok.1 tok.2) [] (Raise KeyError)).
Proof.
  unfold write_header, header_text, label_index, cost_header.
  destruct (cost encoding) as [c|].
  - left. eexists. split; [done | apply emits_stream].
  - destruct (labelnum_of (labels encoding) !! tok.2) as [i|].
    + left. eexists. split; [done | apply emits_stream].
    + right. split; [done | apply emits_raise].
Qed.

(** An instance with a header starts with it, whatever happens next, and
    every later text of the instance starts with whitespace. *)
Lemma write_instance_header (tok : FS * L) (h : text) :
  header_text encoding tok = Some h →
  ∃ rest r, Forall spaced rest
            ∧ emits bin (write_instance encoding (labels encoding)
                           (labelnum_of (labels encoding)) (stream_of bin)
                           bernoulli explicit tok) (h :: rest) r.
Proof.
  intros Hh. destruct (write_header_cases tok) as [(h' & Hh' & Hw)|[Hn _]];
    [|congruence].
  assert (h' = h) as -> by congruence.
  destruct (write_blocks_spaced tok) as (log & r & Hlog & Hb).
  destruct tok as [featureset label]. unfold write_instance. simpl in *.
  destruct r as [[]|e].
  - exists (log ++ [[newline]]), (Ok tt). split.
    + apply Forall_app. split; [done|]. apply Forall_singleton.
      by eexists _, _.
    + eapply (emits_bind_ok _ _ _ [h]); [done|].
      eapply emits_bind_ok; [done | apply emits_stream].
  - exists log, (Raise e). split; [done|].
    eapply (emits_bind_ok _ _ _ [h]); [done|]. by apply emits_bind_raise.
Qed.

(** An instance without a header writes nothing: its label is unknown. *)
Lemma write_instance_no_header (tok : FS * L) :
  header_text encoding tok = None →
  emits bin (write_instance encoding (labels encoding)
               (labelnum_of (labels encoding)) (stream_of bin)
               bernoulli explicit tok) [] (Raise KeyError).
Proof.
  intros Hh. destruct (write_header_cases tok) as [(h' & Hh' & _)|[_ Hw]];
    [congruence|].
  destruct tok as [featureset label]. unfold write_instance. simpl in *.
  by apply emits_bind_raise.
Qed.

Lemma write_instance_cases (tok : FS * L) :
  (instance_ok encoding bernoulli explicit tok
   ∧ emits bin (write_instance encoding (labels encoding)
                  (labelnum_of (labels encoding)) (stream_of bin)
                  bernoulli explicit tok)
       (instance_line encoding bernoulli explicit tok) (Ok tt))
  ∨ (¬ instance_ok encoding bernoulli explicit tok
     ∧ ∃ log e, instance_error encoding bernoulli explicit tok e
                ∧ emits bin (write_instance encoding (labels encoding)
                               (labelnum_of (labels encoding)) (stream_of bin)
                               bernoulli explicit tok) log (Raise e)).
Proof.
  destruct (header_text encoding tok) as [h|] eqn:Hh.
  2:{ right. split; [intros [[? ?] _]; congruence|].
      exists [], KeyError. split; [by left|].
      by apply write_instance_no_header. }
  destruct (write_header_cases tok) as [(h' & Hh' & Hw)|[Hn _]];
    [|congruence].
  assert (h' = h) as -> by congruence.
  destruct (write_blocks_cases tok)
    as [[Hall Hb]|(pre & l & post & log & e & Hl & Hpre & Hnok & He & Hb)].
  - left. split; [by split|]. unfold instance_line. rewrite Hh. simpl.
    destruct tok as [featureset label]. unfold write_instance. simpl in *.
    eapply (emits_bind_ok _ _ _ [h]); [done|].
    eapply emits_bind_ok; [done | apply emits_stream].
  - right. split.
    { intros [_ Hall]. rewrite Hl in Hall.
      apply Forall_app in Hall as [_ Hall].
      by apply Forall_cons_1 in Hall as [? _]. }
    eexists _, e. split.
    + right. split; [done|]. exists l. split.
      { rewrite Hl. apply elem_of_app. right. left. }
      destruct He as [(-> & Hv & _)|(-> & Hb' & Hv)]; [by left | by right].
    + destruct tok as [featureset label]. unfold write_instance. simpl in *.
      eapply (emits_bind_ok _ _ _ [h]); [done|]. by apply emits_bind_raise.
Qed.

(** The whole file: every instance is written, or the first one that
    cannot be stops the writing. *)
Lemma write_megam_file_cases (train_toks : list (FS * L)) :
  (Forall (instance_ok encoding bernoulli explicit) train_toks
   ∧ emits bin (write_megam_file train_toks encoding bernoulli explicit bin)
       (train_toks ≫= instance_line encoding bernoulli explicit) (Ok tt))
  ∨ (∃ pre tok post log e,
       train_toks = pre ++ tok :: post
       ∧ Forall (instance_ok encoding bernoulli explicit) pre
       ∧ ¬ instance_ok encoding bernoulli explicit tok
       ∧ instance_error encoding bernoulli explicit tok e
       ∧ emits bin (write_megam_file train_toks encoding bernoulli explicit bin)
           ((pre ≫= instance_line encoding bernoulli explicit) ++ log)
           (Raise e)).
Proof.
  unfold write_megam_file.
  apply (for_each_cases bin _ (instance_ok encoding bernoulli explicit)
           (fun tok _ e => instance_error encoding bernoulli explicit tok e)).
  intros tok _. apply write_instance_cases.
Qed.

End InstanceFacts.

(** ** Decimal digits *)

Lemma is_digit_cases (c : N) :
  is_digit c →
  (c = 48 ∨ c = 49 ∨ c = 50 ∨ c = 51 ∨ c = 52
   ∨ c = 53 ∨ c = 54 ∨ c = 55 ∨ c = 56 ∨ c = 57)%N.
Proof. unfold is_digit. lia. Qed.

(** Case analysis on a digit. *)
Ltac digit_cases H :=
  apply is_digit_cases in H;
  repeat (destruct H as [H|H]); subst.

Lemma is_digit_not_space (c : N) : is_digit c → isspace c = false.
Proof. intros Hc. by digit_cases Hc. Qed.

Lemma digit_char_is_digit (n : N) : is_digit (digit_char (n mod 10)).
Proof.
  unfold is_digit, digit_char.
  assert (n mod 10 < 10)%N as Hd by (apply N.mod_upper_bound; lia).
  revert Hd. generalize (n mod 10)%N. intros d Hd. lia.
Qed.

Lemma digits_value_snoc (a : N) (ds : text) (n : N) :
  digits_value a (ds ++ [digit_char (n mod 10)])
  = (10 * digits_value a ds + n mod 10)%N.
Proof.
  unfold digits_value, digit_char. rewrite foldl_app. simpl.
  generalize (n mod 10)%N. intros d. lia.
Qed.

Lemma digits_fuel_spec (fuel : nat) (n : N) (acc : text) :
  (n < 2 ^ N.of_nat (S fuel))%N →
  ∃ ds, digits_fuel (S fuel) n acc = ds ++ acc ∧ ds ≠ []
        ∧ Forall is_digit ds
        ∧ ∀ a, digits_value a ds = (a * 10 ^ N.of_nat (length ds) + n)%N.
Proof.
  assert (∀ m a : N, (m < 10)%N →
            digits_value a [digit_char (m mod 10)] = (a * 10 ^ 1 + m)%N)
    as Hone.
  { intros m a Hm. pose proof (digits_value_snoc a [] m) as Hs.
    rewrite app_nil_l in Hs. rewrite Hs.
    rewrite N.mod_small by done. unfold digits_value. simpl. lia. }
  revert n acc. induction fuel as [|fuel IH]; intros n acc Hn.
  - exists [digit_char (n mod 10)].
    change (2 ^ N.of_nat 1)%N with 2%N in Hn.
    cbn [digits_fuel].
    replace (n <? 10)%N with true by (symmetry; apply N.ltb_lt; lia).
    split_and!; [done..| |].
    + apply Forall_singleton, digit_char_is_digit.
    + intros a. apply Hone. lia.
  - cbn [digits_fuel]. destruct (n <? 10)%N eqn:Hlt.
    + exists [digit_char (n mod 10)]. split_and!; [done..| |].
      * apply Forall_singleton, digit_char_is_digit.
      * intros a. apply Hone. by apply N.ltb_lt.
    + destruct (IH (n / 10)%N (digit_char (n mod 10) :: acc))
        as (ds & Hds & Hne & Hall & Hval).
      { apply N.Div0.div_lt_upper_bound.
        rewrite (Nat2N.inj_succ (S fuel)), N.pow_succ_r' in Hn. lia. }
      exists (ds ++ [digit_char (n mod 10)]). split_and!.
      * cbn [digits_fuel] in Hds. by rewrite Hds, <- app_assoc.
      * by destruct ds.
      * apply Forall_app. split; [done|].
        apply Forall_singleton, digit_char_is_digit.
      * intros a. rewrite digits_value_snoc, Hval, length_app. simpl.
        rewrite Nat2N.inj_add, N.pow_add_r. simpl N.of_nat.
        rewrite N.pow_1_r. pose proof (N.div_mod' n 10) as Hdm.
        revert Hdm. generalize (n mod 10)%N (n / 10)%N. intros d q Hdm. nia.
Qed.

(** [digits n] is a string of digits, not empty, that denotes [n]. *)
Lemma digits_spec (n : N) :
  digits n ≠ [] ∧ Forall is_digit (digits n) ∧ digits_value 0 (digits n) = n.
Proof.
  unfold digits.
  destruct (digits_fuel_spec (N.to_nat (N.log2 n)) n []) as (ds & -> & ? & ? & Hv).
  { rewrite Nat2N.inj_succ, N2Nat.id.
    destruct (decide (n = 0%N)) as [->|Hn]; [done|].
    apply N.log2_spec. lia. }
  rewrite app_nil_r. split_and!; [done..|]. rewrite Hv. lia.
Qed.

(** ** [int] reads back what [str] writes *)

Section IntFacts.
Context `{PyHost}.

Lemma digit_value_digit (c : N) : is_digit c → digit_value c = Some (c - 48)%N.
Proof. intros Hc. by digit_cases Hc. Qed.

Lemma int_digits_digits (a : N) (ds : text) :
  Forall is_digit ds → int_digits a false ds = Some (digits_value a ds).
Proof.
  intros Hds. revert a. induction Hds as [|c ds Hc _ IH]; intros a; [done|].
  cbn [int_digits]. rewrite (digit_value_digit c Hc).
  replace (c =? 95)%N with false by (by digit_cases Hc).
  apply IH.
Qed.

Lemma int_literal_digits (ds : text) :
  ds ≠ [] → Forall is_digit ds → int_literal ds = Some (digits_value 0 ds).
Proof.
  intros Hne Hds. destruct ds as [|c ds']; [done|]. unfold int_literal.
  apply Forall_cons_1 in Hds as Hc. destruct Hc as [Hc _].
  replace (c =? 95)%N with false by (by digit_cases Hc).
  by apply int_digits_digits.
Qed.

Lemma int_signed_digit (c : N) (r : text) :
  is_digit c → int_signed (c :: r) = Z.of_N <$> int_literal (c :: r).
Proof. intros Hc. by digit_cases Hc. Qed.

Lemma int_lstrip_head (c : N) (r : text) :
  int_space c = false → int_lstrip (c :: r) = c :: r.
Proof. intros Hc. simpl. by rewrite Hc. Qed.

Lemma is_digit_not_int_space (c : N) : is_digit c → int_space c = false.
Proof. intros Hc. by digit_cases Hc. Qed.

(** [int] leaves alone a text that starts with a digit or a minus sign and
    ends with a digit. *)
Lemma int_strip_digits (sign ds : text) :
  sign = [] ∨ sign = [45%N] → ds ≠ [] → Forall is_digit ds →
  reverse (int_lstrip (reverse (int_lstrip (sign ++ ds)))) = sign ++ ds.
Proof.
  intros Hsign Hne Hds.
  assert (int_lstrip (sign ++ ds) = sign ++ ds) as ->.
  { destruct Hsign as [->| ->]; [|done].
    destruct ds as [|c ds']; [done|]. apply int_lstrip_head.
    apply is_digit_not_int_space. by apply Forall_cons_1 in Hds as [? _]. }
  rewrite reverse_app.
  destruct (reverse ds) as [|c rs] eqn:Hr.
  { apply (f_equal reverse) in Hr. rewrite reverse_involutive in Hr.
    by rewrite Hr in Hne. }
  assert (is_digit c) as Hc.
  { apply Forall_reverse in Hds. rewrite Hr in Hds.
    by apply Forall_cons_1 in Hds as [? _]. }
  simpl app. rewrite int_lstrip_head by by apply is_digit_not_int_space.
  change (c :: rs ++ reverse sign) with ((c :: rs) ++ reverse sign).
  by rewrite <- Hr, <- reverse_app, reverse_involutive.
Qed.

(** [int(str(z)) = z] *)
Lemma py_int_str_int (z : Z) : py_int (str_int z) = Some z.
Proof.
  unfold py_int, str_int. destruct (z <? 0) eqn:Hz.
  - destruct (digits_spec (Z.to_N (- z))) as (Hne & Hds & Hv).
    pose proof (int_strip_digits [45%N] _ (or_intror eq_refl) Hne Hds) as Hs.
    simpl app in Hs. rewrite Hs.
    simpl. rewrite (int_literal_digits _ Hne Hds), Hv. simpl.
    f_equal. lia.
  - destruct (digits_spec (Z.to_N z)) as (Hne & Hds & Hv).
    pose proof (int_strip_digits [] _ (or_introl eq_refl) Hne Hds) as Hs.
    simpl app in Hs. rewrite Hs.
    destruct (digits (Z.to_N z)) as [|c ds'] eqn:Hd; [done|].
    rewrite int_signed_digit by by apply Forall_cons_1 in Hds as [? _].
    rewrite (int_literal_digits _ Hne Hds), Hv. simpl.
    f_equal. lia.
Qed.

(** The digits of a number followed by whitespace or by nothing are its
    first token. *)
Lemma split_str_nat (i : nat) (rest : text) :
  rest = [] ∨ spaced rest →
  head (split (str_int (Z.of_nat i) ++ rest)) = Some (str_int (Z.of_nat i)).
Proof.
  intros Hrest. unfold str_int.
  replace (Z.of_nat i <? 0) with false by (symmetry; apply Z.ltb_ge; lia).
  destruct (digits_spec (Z.to_N (Z.of_nat i))) as (Hne & Hds & _).
  assert (Forall (fun a => isspace a = false) (digits (Z.to_N (Z.of_nat i))))
    as Hns.
  { eapply Forall_impl; [exact Hds|]. apply is_digit_not_space. }
  destruct Hrest as [->|(c & r & -> & Hc)].
  - by rewrite app_nil_r, split_token_end.
  - by rewrite split_token.
Qed.

End IntFacts.

Lemma concat_spaced (line : list text) :
  Forall spaced line → concat line = [] ∨ spaced (concat line).
Proof.
  intros [|t ts (c & r & -> & Hc) _]; [by left|].
  right. by exists c, (r ++ concat ts).
Qed.

(** ** The number of a label *)

Section LabelFacts.
Context {L : Type} `{Countable L}.

Lemma labelnum_of_snoc (ls : list L) (l : L) :
  labelnum_of (ls ++ [l]) = <[l := length ls]> (labelnum_of ls).
Proof.
  unfold labelnum_of, dict, enumerate.
  rewrite imap_app, fmap_app, foldl_app. simpl.
  by rewrite Nat.add_0_r.
Qed.

(** [labelnum] maps a label to its last position in the label order, and
    has no entry for anything else. *)
Lemma labelnum_of_lookup (ls : list L) (label : L) :
  match labelnum_of ls !! label with
  | Some i => ls !! i = Some label ∧ ∀ j, ls !! j = Some label → (j <= i)%nat
  | None => label ∉ ls
  end.
Proof.
  induction ls as [|l ls IH] using rev_ind.
  - unfold labelnum_of, dict. simpl. rewrite lookup_empty. apply not_elem_of_nil.
  - rewrite labelnum_of_snoc. destruct (decide (l = label)) as [->|Hne].
    + rewrite lookup_insert_eq. split.
      * by rewrite lookup_app_r, Nat.sub_diag by done.
      * intros j Hj. apply lookup_lt_Some in Hj. rewrite length_app in Hj.
        simpl in Hj. lia.
    + rewrite lookup_insert_ne by done.
      destruct (labelnum_of ls !! label) as [i|].
      * destruct IH as [Hi Hmax]. split.
        -- by rewrite lookup_app_l by (by eapply lookup_lt_Some).
        -- intros j Hj. apply Hmax.
           destruct (decide (j < length ls)%nat) as [Hlt|Hge].
           ++ by rewrite lookup_app_l in Hj.
           ++ rewrite lookup_app_r in Hj by lia.
              apply list_lookup_singleton_Some in Hj as [_ ?]. congruence.
      * rewrite elem_of_app, list_elem_of_singleton. intros [?|?]; [done|congruence].
Qed.

End LabelFacts.

(** ** The file, instance by instance *)

Section FileFacts.
Context {FS L C : Type} `{Countable L} `{PyStr C}.
Context (bin : bool) (encoding : Encoding FS L C) (bernoulli explicit : bool).

Lemma write_instance_emits (tok : FS * L) :
  ∃ log r, Forall (fun _ => True) log
           ∧ emits bin (write_instance encoding (labels encoding)
                          (labelnum_of (labels encoding)) (stream_of bin)
                          bernoulli explicit tok) log r.
Proof.
  destruct (write_instance_cases bin encoding bernoulli explicit tok)
    as [[_ Hw]|(_ & log & e & _ & Hw)]; eexists _, _;
    (split; [by apply Forall_true | exact Hw]).
Qed.

Lemma write_instance_ok (tok : FS * L) :
  instance_ok encoding bernoulli explicit tok →
  emits bin (write_instance encoding (labels encoding)
               (labelnum_of (labels encoding)) (stream_of bin)
               bernoulli explicit tok)
    (instance_line encoding bernoulli explicit tok) (Ok tt).
Proof.
  intros Hok.
  by destruct (write_instance_cases bin encoding bernoulli explicit tok)
    as [[_ Hw]|[? _]].
Qed.

(** After the instances that can be written, the next one with a header
    starts with it. *)
Lemma write_megam_file_at (pre post : list (FS * L)) (tok : FS * L) (h : text) :
  Forall (instance_ok encoding bernoulli explicit) pre →
  header_text encoding tok = Some h →
  ∃ line r0 rest r,
    Forall spaced line
    ∧ emits bin (write_instance encoding (labels encoding)
                   (labelnum_of (labels encoding)) (stream_of bin)
                   bernoulli explicit tok) (h :: line) r0
    ∧ emits bin (write_megam_file (pre ++ tok :: post) encoding bernoulli
                   explicit bin)
        ((pre ≫= instance_line encoding bernoulli explicit)
         ++ (h :: line) ++ rest) r.
Proof.
  intros Hpre Hh. unfold write_megam_file.
  destruct (write_instance_header bin encoding bernoulli explicit tok h Hh)
    as (line & r0 & Hline & Hw).
  destruct (for_each_emits bin
              (write_instance encoding (labels encoding)
                 (labelnum_of (labels encoding)) (stream_of bin)
                 bernoulli explicit) (fun _ => True) post)
    as (rest & r & _ & Hpost).
  { intros x _. apply write_instance_emits. }
  exists line, r0. destruct r0 as [[]|e].
  - exists rest, r. split_and!; [done..|].
    apply for_each_prefix.
    + intros x Hx. apply write_instance_ok.
      rewrite Forall_forall in Hpre. by apply Hpre.
    + cbn [for_each]. by eapply emits_bind_ok.
  - exists [], (Raise e). split_and!; [done..|].
    apply for_each_prefix.
    + intros x Hx. apply write_instance_ok.
      rewrite Forall_forall in Hpre. by apply Hpre.
    + cbn [for_each]. rewrite app_nil_r. by apply emits_bind_raise.
Qed.

(** An instance whose label is unknown stops the writing before anything of
    it is written. *)
Lemma write_megam_file_unknown (pre post : list (FS * L)) (tok : FS * L) :
  Forall (instance_ok encoding bernoulli explicit) pre →
  header_text encoding tok = None →
  emits bin (write_megam_file (pre ++ tok :: post) encoding bernoulli
               explicit bin)
    (pre ≫= instance_line encoding bernoulli explicit) (Raise KeyError).
Proof.
  intros Hpre Hh. unfold write_megam_file.
  rewrite <- (app_nil_r (pre ≫= _)). apply for_each_prefix.
  - intros x Hx. apply write_instance_ok.
    rewrite Forall_forall in Hpre. by apply Hpre.
  - cbn [for_each]. apply emits_bind_raise. by apply write_instance_no_header.
Qed.

End FileFacts.

(** ** The Serializer's contract *)

(** C2: when every instance can be written, [write_megam_file] writes for
    each training pair, in order, its header, its feature blocks and a
    newline, and returns; it returns only then.  In the explicit format the
    blocks are one per label of the encoding, in the encoding's order, each
    after the separator [" #"]; otherwise there is one block, for the pair's
    own label, and no separator. *)
Theorem write_megam_file_format {FS L C : Type} `{Countable L} `{PyStr C}
    (train_toks : list (FS * L)) (encoding : Encoding FS L C)
    (bernoulli explicit bin_stream : bool) (s : list chunk) :
  (Forall (instance_ok encoding bernoulli explicit) train_toks
   ↔ (write_megam_file train_toks encoding bernoulli explicit bin_stream s).2
     = Ok tt)
  ∧ (Forall (instance_ok encoding bernoulli explicit) train_toks →
     write_megam_file train_toks encoding bernoulli explicit bin_stream s
     = (s ++ (chunk_of bin_stream <$>
                (train_toks ≫= fun tok =>
                   default [] (header_text encoding tok)
                   :: concat (instance_blocks encoding bernoulli explicit tok)
                   ++ [[newline]])),
        Ok tt))
  ∧ (∀ tok,
       instance_blocks encoding bernoulli explicit tok
       = if explicit
         then (fun l => txt " #"
                        :: feature_block bernoulli (encode encoding tok.1 l))
                <$> labels encoding
         else [feature_block bernoulli (encode encoding tok.1 tok.2)])
  ∧ (∀ tok,
       length (instance_blocks encoding bernoulli explicit tok)
       = if explicit then length (labels encoding) else 1%nat).
Proof.
  split_and!.
  - destruct (write_megam_file_cases bin_stream encoding bernoulli explicit
                train_toks)
      as [[Hall Hw]|(pre & tok & post & log & e & -> & _ & Hnok & _ & Hw)];
      rewrite Hw; simpl; split; [done..| |done].
    intros Hall. apply Forall_app in Hall as [_ Hall].
    by apply Forall_cons_1 in Hall as [? _].
  - intros Hall.
    destruct (write_megam_file_cases bin_stream encoding bernoulli explicit
                train_toks)
      as [[_ Hw]|(pre & tok & post & log & e & -> & _ & Hnok & _ & Hw)].
    + apply Hw.
    + apply Forall_app in Hall as [_ Hall].
      by apply Forall_cons_1 in Hall as [? _].
  - intros tok. unfold instance_blocks, instance_block, block_labels.
    by destruct explicit.
  - intros tok. unfold instance_blocks, block_labels.
    rewrite length_fmap. by destruct explicit.
Qed.

Lemma write_megam_file_format_witness :
  Forall (instance_ok example_encoding true true) [(1, 10); (2, 20)]%nat
  ∧ write_megam_file [(1, 10); (2, 20)]%nat example_encoding true true false []
    = ([Str (txt "0"); Str (txt " #"); Str (txt " 1"); Str (txt " 7");
        Str (txt " #"); Str (txt " 1"); Str (txt " 7"); Str [newline];
        Str (txt "1"); Str (txt " #"); Str (txt " 2"); Str (txt " 7");
        Str (txt " #"); Str (txt " 2"); Str (txt " 7"); Str [newline]],
       Ok tt).
Proof.
  assert (Forall (instance_ok example_encoding true true)
            [(1, 10); (2, 20)]%nat) as Hall.
  { repeat apply Forall_cons_2; [..|apply Forall_nil_2];
      (split; [by eexists|]);
      repeat apply Forall_cons_2; try apply Forall_nil_2;
      (split; [done|]); intros _;
      repeat apply Forall_cons_2; try apply Forall_nil_2;
      (by left) || (by right). }
  split; [done|].
  by destruct (write_megam_file_format [(1, 10); (2, 20)]%nat example_encoding
                 true true false []) as (_ & -> & _).
Defined.

(** C3: in bernoulli mode a feature of value 1 is written as its id alone,
    a feature of value 0 is not written, and any other value raises the
    binary-value error, after the tokens of the features before it.  Hence
    [write_megam_file] in bernoulli mode never raises that error when every
    value of every vector it encodes is 0 or 1, and it raises when some
    value is not (the binary-value error itself, unless a header or an empty
    vector stops it first).  Without bernoulli mode a feature is written as
    its id and its value whatever the value, and the binary-value error is
    never raised. *)
Theorem write_megam_file_binary {FS L C : Type} `{Countable L} `{PyStr C}
    (encoding : Encoding FS L C) (explicit bin_stream : bool) :
  (∀ fid, emits bin_stream (write_feature (stream_of bin_stream) true (fid, 1))
            [txt " " ++ str_int fid] (Ok tt))
  ∧ (∀ fid, emits bin_stream
              (write_feature (stream_of bin_stream) true (fid, 0)) [] (Ok tt))
  ∧ (∀ fid fval, fval ≠ 0 → fval ≠ 1 →
       emits bin_stream (write_feature (stream_of bin_stream) true (fid, fval))
         [] (Raise (ValueError binary_msg)))
  ∧ (∀ pre fid fval post,
       Forall binary_value pre → fval ≠ 0 → fval ≠ 1 →
       emits bin_stream
         (_write_megam_features (pre ++ (fid, fval) :: post)
            (stream_of bin_stream) true)
         (feature_block true pre) (Raise (ValueError binary_msg)))
  ∧ (∀ train_toks s,
       (∀ tok l, tok ∈ train_toks → l ∈ block_labels encoding explicit tok →
          Forall binary_value (encode encoding tok.1 l)) →
       (write_megam_file train_toks encoding true explicit bin_stream s).2
       ≠ Raise (ValueError binary_msg))
  ∧ (∀ train_toks s tok l,
       tok ∈ train_toks → l ∈ block_labels encoding explicit tok →
       ¬ Forall binary_value (encode encoding tok.1 l) →
       (∃ e, (write_megam_file train_toks encoding true explicit bin_stream s).2
             = Raise e)
       ∧ ((∀ tok', tok' ∈ train_toks →
             is_Some (header_text encoding tok')
             ∧ ∀ l', l' ∈ block_labels encoding explicit tok' →
                 encode encoding tok'.1 l' ≠ []) →
          (write_megam_file train_toks encoding true explicit bin_stream s).2
          = Raise (ValueError binary_msg)))
  ∧ (∀ fid fval,
       emits bin_stream (write_feature (stream_of bin_stream) false (fid, fval))
         [txt " " ++ str_int fid ++ txt " " ++ str_int fval] (Ok tt))
  ∧ (∀ train_toks s,
       (write_megam_file train_toks encoding false explicit bin_stream s).2
       ≠ Raise (ValueError binary_msg)).
Proof.
  assert (∀ bernoulli train_toks s,
            (write_megam_file train_toks encoding bernoulli explicit
               bin_stream s).2 = Raise (ValueError binary_msg) →
            bernoulli = true
            ∧ ∃ tok l, tok ∈ train_toks
                       ∧ l ∈ block_labels encoding explicit tok
                       ∧ ¬ Forall binary_value (encode encoding tok.1 l))
    as Hcause.
  { intros bernoulli train_toks s.
    destruct (write_megam_file_cases bin_stream encoding bernoulli explicit
                train_toks)
      as [[_ Hw]|(pre & tok & post & log & e & -> & _ & _ & He & Hw)];
      rewrite Hw; simpl; [done|]. intros [= ->].
    destruct He as [[? _]|(_ & l & Hl & [[Hmsg _]|(_ & Hb & Hv)])];
      [done | by injection Hmsg |].
    split; [done|]. exists tok, l. split_and!; [|done..].
    apply elem_of_app. right. left. }
  split_and!.
  - intros fid. by destruct (write_feature_cases bin_stream true (fid, 1))
      as [[_ ?]|[Hn _]]; [|destruct Hn; right].
  - intros fid. by destruct (write_feature_cases bin_stream true (fid, 0))
      as [[_ ?]|[Hn _]]; [|destruct Hn; left].
  - intros fid fval Hf0 Hf1.
    destruct (write_feature_cases bin_stream true (fid, fval))
      as [[Hb _]|[_ ?]]; [|done].
    by destruct (Hb eq_refl).
  - intros pre fid fval post Hpre Hf0 Hf1.
    destruct (write_megam_features_cases bin_stream true
                (pre ++ (fid, fval) :: post))
      as [[[_ Hall] _]|[[Hnil _]|(_ & pre' & f & post' & Hv & Hpre' & Hf & Hw)]].
    + specialize (Hall eq_refl). apply Forall_app in Hall as [_ Hall].
      apply Forall_cons_1 in Hall as [[?|?] _]; done.
    + by destruct pre.
    + assert (pre' = pre) as ->; [|done].
      clear Hw. revert pre' Hv Hpre'.
      induction Hpre as [|g pre Hg Hpre IH]; intros pre' Hv Hpre'.
      * destruct pre' as [|g' pre']; [done|]. simplify_eq/=.
        apply Forall_cons_1 in Hpre' as [[?|?] _]; done.
      * destruct pre' as [|g' pre'].
        -- by simplify_eq/=.
        -- simplify_eq/=. f_equal. apply IH; [done|].
           by apply Forall_cons_1 in Hpre' as [_ ?].
  - intros train_toks s Hall Hr.
    destruct (Hcause true train_toks s Hr) as (_ & tok & l & Htok & Hl & Hv).
    apply Hv. by apply Hall.
  - intros train_toks s tok l Htok Hl Hv.
    assert (¬ instance_ok encoding true explicit tok) as Hnok.
    { intros [_ Hall]. rewrite Forall_forall in Hall.
      destruct (Hall l Hl) as [_ Hb]. by apply Hv, Hb. }
    destruct (write_megam_file_cases bin_stream encoding true explicit
                train_toks)
      as [[Hall _]|(pre & tok' & post & log & e & -> & _ & _ & He & Hw)].
    { rewrite Forall_forall in Hall. by destruct Hnok; apply Hall. }
    split; [exists e; by rewrite Hw|]. rewrite Hw. simpl. intros Hfine.
    destruct (Hfine tok') as [Hh Hne]; [apply elem_of_app; right; left|].
    destruct He as [[_ Hn]|(_ & l' & Hl' & [[_ Hnil]|(-> & _)])]; [| |done].
    + rewrite Hn in Hh. by destruct Hh.
    + by destruct (Hne l' Hl').
  - intros fid fval.
    by destruct (write_feature_cases bin_stream false (fid, fval))
      as [[_ ?]|[Hn _]]; [|destruct Hn].
  - intros train_toks s Hr. by destruct (Hcause false train_toks s Hr).
Qed.

Lemma write_megam_file_binary_witness :
  (2 ≠ 0 ∧ 2 ≠ 1
   ∧ emits false (write_feature (stream_of false) true (5, 2)) []
       (Raise (ValueError binary_msg)))
  ∧ ((∀ tok l, tok ∈ [(1, 10); (2, 20)]%nat →
        l ∈ block_labels example_encoding true tok →
        Forall binary_value (encode example_encoding tok.1 l))
     ∧ (write_megam_file [(1, 10); (2, 20)]%nat example_encoding true true
          false []).2 ≠ Raise (ValueError binary_msg))
  ∧ ((1, 10)%nat ∈ [(1, 10)%nat]
     ∧ 20%nat ∈ block_labels example_cost_encoding true (1, 10)%nat
     ∧ ¬ Forall binary_value (encode example_cost_encoding 1%nat 20%nat)
     ∧ ∃ e, (write_megam_file [(1, 10)%nat] example_cost_encoding true true
               false []).2 = Raise e).
Proof.
  assert (∀ tok l, tok ∈ [(1, 10); (2, 20)]%nat →
            l ∈ block_labels example_encoding true tok →
            Forall binary_value (encode example_encoding tok.1 l)) as Hbin.
  { intros tok l _ _. simpl.
    repeat apply Forall_cons_2; try apply Forall_nil_2;
      (by left) || (by right). }
  assert (¬ Forall binary_value (encode example_cost_encoding 1%nat 20%nat))
    as Hnb.
  { simpl. intros Hall. apply Forall_cons_1 in Hall as [_ Hall].
    by apply Forall_cons_1 in Hall as [[?|?] _]. }
  assert (20%nat ∈ block_labels example_cost_encoding true (1, 10)%nat) as Hl.
  { simpl. right. left. }
  destruct (write_megam_file_binary example_encoding true false)
    as (_ & _ & Hone & _ & Hnever & _).
  destruct (write_megam_file_binary example_cost_encoding true false)
    as (_ & _ & _ & _ & _ & Hraise & _).
  split_and!; [done | done | by apply Hone | done | by apply Hnever
              | left | done | done |].
  by destruct (Hraise [(1, 10)%nat] [] (1, 10)%nat 20%nat) as [? _]; [left|..].
Defined.

(** ** Colon-joined texts *)

(** A text without the separator is one part. *)
Lemma split_on_free (sep : N) (p : text) :
  sep ∉ p → split_on sep p = [p].
Proof.
  induction p as [|c p IH]; [done|]. intros Hp.
  apply not_elem_of_cons in Hp as [Hc Hp]. cbn [split_on].
  replace (c =? sep)%N with false by (symmetry; apply N.eqb_neq; congruence).
  by rewrite IH.
Qed.

(** Splitting stops at the first separator. *)
Lemma split_on_app (sep : N) (p r : text) :
  sep ∉ p → split_on sep (p ++ sep :: r) = p :: split_on sep r.
Proof.
  induction p as [|c p IH]; intros Hp.
  - cbn [app split_on]. by rewrite N.eqb_refl.
  - apply not_elem_of_cons in Hp as [Hc Hp]. cbn [app split_on].
    replace (c =? sep)%N with false
      by (symmetry; apply N.eqb_neq; congruence).
    by rewrite IH.
Qed.

(** [sep.join(parts).split(sep)] gives the parts back when none of them
    holds the separator and there is at least one. *)
Lemma split_on_join (sep : N) (parts : list text) :
  parts ≠ [] → Forall (fun p => sep ∉ p) parts →
  split_on sep (join [sep] parts) = parts.
Proof.
  intros Hne Hall. induction Hall as [|p ps Hp Hps IH]; [done|].
  destruct ps as [|q ps].
  - cbn [join]. by apply split_on_free.
  - change (join [sep] (p :: q :: ps))
      with (p ++ sep :: join [sep] (q :: ps)).
    rewrite split_on_app by done. by rewrite IH.
Qed.

(** The separators of a joined text: one less than there are parts. *)
Lemma join_separators (sep : N) (parts : list text) :
  Forall (fun p => sep ∉ p) parts →
  length (filter (fun c => c = sep) (join [sep] parts))
  = pred (length parts).
Proof.
  assert (∀ p : text, sep ∉ p → filter (fun c => c = sep) p = []) as Hfree.
  { intros p Hp. induction p as [|c p IH]; [done|].
    apply not_elem_of_cons in Hp as [Hc Hp].
    rewrite filter_cons_False by congruence. by apply IH. }
  intros Hall. induction Hall as [|p ps Hp Hps IH]; [done|].
  destruct ps as [|q ps].
  - cbn [join]. by rewrite Hfree.
  - change (join [sep] (p :: q :: ps))
      with (p ++ sep :: join [sep] (q :: ps)).
    rewrite filter_app, Hfree, filter_cons_True by done.
    cbn [app length]. rewrite IH. done.
Qed.

(** C4: after the instances that were written, the first text written for
    the next training pair is decided by the encoding alone: with a cost,
    the costs of all labels in the encoding's order for this pair's
    featureset and label, joined by colons; without one, the decimal number
    of the pair's label in the label order, and nothing at all but a
    [KeyError] when the label is not one of the encoding's.  The text of
    the costs is the empty text when there is no label; it is the cost
    itself when there is one label; and when no cost holds a colon, it has
    one colon less than there are labels and splitting it at the colons
    gives back the costs, one per label in the label order. *)
Theorem write_megam_file_header {FS L C : Type} `{Countable L} `{PyStr C}
    (pre post : list (FS * L)) (tok : FS * L) (encoding : Encoding FS L C)
    (bernoulli explicit bin_stream : bool) (s : list chunk) :
  Forall (instance_ok encoding bernoulli explicit) pre →
  (∀ c, cost encoding = Some c →
     ∃ h rest r,
       write_megam_file (pre ++ tok :: post) encoding bernoulli explicit
         bin_stream s
       = (s ++ (chunk_of bin_stream <$>
                  (pre ≫= instance_line encoding bernoulli explicit)
                  ++ h :: rest), r)
       ∧ h = join (txt ":")
               ((fun l => py_str (c tok.1 tok.2 l)) <$> labels encoding)
       ∧ (labels encoding = [] → h = [])
       ∧ (∀ l, labels encoding = [l] → h = py_str (c tok.1 tok.2 l))
       ∧ (Forall (fun l => 58%N ∉ py_str (c tok.1 tok.2 l))
            (labels encoding) →
          length (filter (fun ch => ch = 58%N) h)
          = pred (length (labels encoding))
          ∧ (labels encoding ≠ [] →
             split_on 58 h
             = (fun l => py_str (c tok.1 tok.2 l)) <$> labels encoding)))
  ∧ (cost encoding = None →
     ∀ i, labelnum_of (labels encoding) !! tok.2 = Some i →
       labels encoding !! i = Some tok.2
       ∧ ∃ rest r,
           write_megam_file (pre ++ tok :: post) encoding bernoulli explicit
             bin_stream s
           = (s ++ (chunk_of bin_stream <$>
                      (pre ≫= instance_line encoding bernoulli explicit)
                      ++ str_int (Z.of_nat i) :: rest), r))
  ∧ (cost encoding = None → tok.2 ∉ labels encoding →
     write_megam_file (pre ++ tok :: post) encoding bernoulli explicit
       bin_stream s
     = (s ++ (chunk_of bin_stream <$>
                pre ≫= instance_line encoding bernoulli explicit),
        Raise KeyError)).
Proof.
  intros Hpre. split_and!.
  - intros c Hc.
    destruct (write_megam_file_at bin_stream encoding bernoulli explicit
                pre post tok (cost_header c encoding tok))
      as (line & r0 & rest & r & _ & _ & Hw); [done | |].
    { unfold header_text. by rewrite Hc. }
    exists (cost_header c encoding tok), (line ++ rest), r.
    unfold cost_header. split_and!; [by rewrite Hw | done | | |].
    + by intros ->.
    + by intros l ->.
    + intros Hfree.
      assert (Forall (fun p : text => 58%N ∉ p)
                ((fun l => py_str (c tok.1 tok.2 l)) <$> labels encoding))
        as Hparts by by apply Forall_fmap.
      change (txt ":") with [58%N]. split.
      * by rewrite join_separators, length_fmap.
      * intros Hne. apply split_on_join; [|done].
        by destruct (labels encoding).
  - intros Hc i Hi.
    pose proof (labelnum_of_lookup (labels encoding) tok.2) as Hlook.
    rewrite Hi in Hlook. destruct Hlook as [Hlab _]. split; [done|].
    destruct (write_megam_file_at bin_stream encoding bernoulli explicit
                pre post tok (str_int (Z.of_nat i)))
      as (line & r0 & rest & r & _ & _ & Hw); [done | |].
    { unfold header_text, label_index. by rewrite Hc, Hi. }
    exists (line ++ rest), r. by rewrite Hw.
  - intros Hc Hnot.
    apply (write_megam_file_unknown bin_stream encoding bernoulli explicit);
      [done|].
    unfold header_text, label_index. rewrite Hc.
    pose proof (labelnum_of_lookup (labels encoding) tok.2) as Hlook.
    destruct (labelnum_of (labels encoding) !! tok.2) as [i|]; [|done].
    destruct Hlook as [Hlab _]. destruct Hnot.
    by eapply list_elem_of_lookup_2.
Qed.

Lemma write_megam_file_header_witness :
  (Forall (instance_ok example_encoding true true) [(1, 10)%nat]
   ∧ cost example_encoding = None
   ∧ labelnum_of (labels example_encoding) !! 20%nat = Some 1%nat
   ∧ labels example_encoding !! 1%nat = Some 20%nat
   ∧ ∃ rest r,
       write_megam_file ([(1, 10)%nat] ++ (2, 20)%nat :: []) example_encoding
         true true false []
       = ([] ++ (chunk_of false <$>
                   ([(1, 10)%nat] ≫= instance_line example_encoding true true)
                   ++ str_int (Z.of_nat 1) :: rest), r))
  ∧ (Forall (instance_ok example_cost_encoding false false) []
     ∧ (∃ c, cost example_cost_encoding = Some c
             ∧ Forall (fun l => 58%N ∉ py_str (c 1%nat 10%nat l))
                 (labels example_cost_encoding))
     ∧ ∃ rest r,
         write_megam_file ([] ++ (1, 10)%nat :: []) example_cost_encoding
           false false false []
         = ([Str (txt "0:-10:-20")] ++ (Str <$> rest), r)
         ∧ length (filter (fun ch => ch = 58%N) (txt "0:-10:-20")) = 2%nat
         ∧ split_on 58 (txt "0:-10:-20")
           = [txt "0"; txt "-10"; txt "-20"]).
Proof.
  assert (Forall (instance_ok example_encoding true true) [(1, 10)%nat])
    as Hpre.
  { apply Forall_singleton. split; [by eexists|].
    repeat apply Forall_cons_2; try apply Forall_nil_2;
      (split; [done|]); intros _;
      repeat apply Forall_cons_2; try apply Forall_nil_2;
      (by left) || (by right). }
  assert (Forall (fun l => 58%N ∉ py_str ((Z.of_nat 10 - Z.of_nat l)%Z))
            (labels example_cost_encoding)) as Hfree.
  { repeat apply Forall_cons_2; try apply Forall_nil_2;
      vm_compute; intros Hin;
      repeat (apply elem_of_cons in Hin as [?|Hin]; [done|]);
      by apply elem_of_nil in Hin. }
  split.
  - split_and!; [done | done | done | done |].
    destruct (write_megam_file_header [(1, 10)%nat] [] (2, 20)%nat
                example_encoding true true false [] Hpre) as (_ & Hindex & _).
    by destruct (Hindex eq_refl 1%nat eq_refl) as [_ ?].
  - split_and!; [apply Forall_nil_2 | by eexists |].
    destruct (write_megam_file_header [] [] (1, 10)%nat
                example_cost_encoding false false false []
                (Forall_nil_2 _)) as (Hcost & _).
    destruct (Hcost _ eq_refl) as (h & rest & r & Hw & -> & _ & _ & Hsplit).
    destruct (Hsplit Hfree) as [Hcolons Hparts].
    exists rest, r. split_and!; [exact Hw | exact Hcolons|].
    by apply Hparts.
Defined.

(** C5: [_write_megam_features] refuses an empty vector with the always-on
    error before it writes anything, in bernoulli mode and without it.
    Hence, when the training pairs up to some pair have a header and the
    encoding gives an empty vector for a label whose block is written for
    that pair, [write_megam_file] raises a formatting error. *)
Theorem write_megam_file_always_on {FS L C : Type} `{Countable L} `{PyStr C}
    (pre post : list (FS * L)) (tok : FS * L) (l : L)
    (encoding : Encoding FS L C) (bernoulli explicit bin_stream : bool)
    (s : list chunk) :
  emits bin_stream (_write_megam_features [] (stream_of bin_stream) bernoulli)
    [] (Raise (ValueError always_on_msg))
  ∧ (Forall (fun t => is_Some (header_text encoding t)) (pre ++ [tok]) →
     l ∈ block_labels encoding explicit tok →
     encode encoding tok.1 l = [] →
     ∃ s' msg,
       write_megam_file (pre ++ tok :: post) encoding bernoulli explicit
         bin_stream s = (s', Raise (ValueError msg))
       ∧ (msg = always_on_msg ∨ msg = binary_msg)).
Proof.
  split.
  { by destruct (write_megam_features_cases bin_stream bernoulli [])
      as [[[? _] _]|[[_ ?]|(_ & pre' & ? & ? & ? & _)]]; [| |destruct pre']. }
  intros Hheaders Hl Hnil.
  assert (¬ instance_ok encoding bernoulli explicit tok) as Hnok.
  { intros [_ Hall]. rewrite Forall_forall in Hall.
    by destruct (Hall l Hl) as [? _]. }
  destruct (write_megam_file_cases bin_stream encoding bernoulli explicit
              (pre ++ tok :: post))
    as [[Hall _]|(pre' & tok' & post' & log & e & Htoks & Hpre' & _ & He & Hw)].
  { apply Forall_app in Hall as [_ Hall].
    by apply Forall_cons_1 in Hall as [? _]. }
  assert (tok' ∈ pre ++ [tok]) as Htok'.
  { destruct (decide (length pre' ≤ length pre)%nat) as [Hle|Hgt].
    - apply (list_elem_of_lookup_2 _ (length pre')).
      rewrite <- (lookup_app_l _ post) by (rewrite length_app; simpl; lia).
      rewrite <- app_assoc. simpl. rewrite Htoks.
      by rewrite lookup_app_r, Nat.sub_diag by done.
    - destruct Hnok. rewrite Forall_forall in Hpre'. apply Hpre'.
      apply (list_elem_of_lookup_2 _ (length pre)).
      rewrite <- (lookup_app_l _ (tok' :: post')) by lia.
      rewrite <- Htoks. by rewrite lookup_app_r, Nat.sub_diag by done. }
  rewrite Forall_forall in Hheaders. specialize (Hheaders tok' Htok').
  destruct He as [[_ Hn]|(_ & l' & _ & [[-> _]|(-> & _)])].
  - rewrite Hn in Hheaders. by destruct Hheaders.
  - eexists _, _. split; [apply Hw | by left].
  - eexists _, _. split; [apply Hw | by right].
Qed.

Lemma write_megam_file_always_on_witness :
  Forall (fun t => is_Some (header_text example_cost_encoding t))
    ([] ++ [(1, 10)%nat])
  ∧ 30%nat ∈ block_labels example_cost_encoding true (1, 10)%nat
  ∧ encode example_cost_encoding 1%nat 30%nat = []
  ∧ ∃ s' msg,
      write_megam_file ([] ++ (1, 10)%nat :: []) example_cost_encoding false
        true false [] = (s', Raise (ValueError msg))
      ∧ (msg = always_on_msg ∨ msg = binary_msg).
Proof.
  assert (Forall (fun t => is_Some (header_text example_cost_encoding t))
            ([] ++ [(1, 10)%nat])) as Hh.
  { apply Forall_singleton. by eexists. }
  assert (30%nat ∈ block_labels example_cost_encoding true (1, 10)%nat) as Hl.
  { simpl. right. right. left. }
  split_and!; [done | done | done |].
  by apply (write_megam_file_always_on [] [] (1, 10)%nat 30%nat
              example_cost_encoding false true false []).
Defined.

(** C9: for an encoding without a cost and a training pair whose label is
    one of the encoding's, the first whitespace-delimited token of what
    [write_megam_file] writes for the pair, read back with [int], is the
    number [labelnum] gives the label, which is a position of the label in
    the label order (the last one). *)
Theorem write_megam_file_label_roundtrip `{PyHost} {FS L C : Type}
    `{Countable L} `{PyStr C} (pre post : list (FS * L)) (tok : FS * L)
    (encoding : Encoding FS L C) (bernoulli explicit bin_stream : bool)
    (s : list chunk) :
  cost encoding = None →
  Forall (instance_ok encoding bernoulli explicit) pre →
  tok.2 ∈ labels encoding →
  ∃ (i : nat) (line rest : list text) (r0 r : result unit) (w : text),
    write_instance encoding (labels encoding) (labelnum_of (labels encoding))
      (stream_of bin_stream) bernoulli explicit tok []
    = (chunk_of bin_stream <$> line, r0)
    ∧ write_megam_file (pre ++ tok :: post) encoding bernoulli explicit
        bin_stream s
      = (s ++ (chunk_of bin_stream <$>
                 (pre ≫= instance_line encoding bernoulli explicit)
                 ++ line ++ rest), r)
    ∧ head (split (concat line)) = Some w
    ∧ py_int w = Some (Z.of_nat i)
    ∧ labelnum_of (labels encoding) !! tok.2 = Some i
    ∧ labels encoding !! i = Some tok.2
    ∧ ∀ j, labels encoding !! j = Some tok.2 → (j <= i)%nat.
Proof.
  intros Hc Hpre Hlabel.
  pose proof (labelnum_of_lookup (labels encoding) tok.2) as Hlook.
  destruct (labelnum_of (labels encoding) !! tok.2) as [i|] eqn:Hi; [|done].
  destruct Hlook as [Hlab Hmax].
  destruct (write_megam_file_at bin_stream encoding bernoulli explicit
              pre post tok (str_int (Z.of_nat i)))
    as (line & r0 & rest & r & Hline & Hinst & Hfile); [done | |].
  { unfold header_text, label_index. by rewrite Hc, Hi. }
  exists i, (str_int (Z.of_nat i) :: line), rest, r0, r, (str_int (Z.of_nat i)).
  split_and!; [apply (Hinst []) | apply Hfile | | apply py_int_str_int
              | done..].
  simpl concat. apply split_str_nat.
  by destruct (concat_spaced line Hline); [left | right].
Qed.

Lemma write_megam_file_label_roundtrip_witness :
  cost example_encoding = None
  ∧ Forall (instance_ok example_encoding true true) [(1, 10)%nat]
  ∧ 20%nat ∈ labels example_encoding
  ∧ ∃ (i : nat) (line rest : list text) (r0 r : result unit) (w : text),
      write_instance example_encoding (labels example_encoding)
        (labelnum_of (labels example_encoding)) (stream_of false) true true
        (2, 20)%nat []
      = (chunk_of false <$> line, r0)
      ∧ write_megam_file ([(1, 10)%nat] ++ (2, 20)%nat :: []) example_encoding
          true true false []
        = ([] ++ (chunk_of false <$>
                    ([(1, 10)%nat] ≫= instance_line example_encoding true true)
                    ++ line ++ rest), r)
      ∧ head (split (concat line)) = Some w
      ∧ py_int (H := example_host) w = Some (Z.of_nat i)
      ∧ labelnum_of (labels example_encoding) !! 20%nat = Some i
      ∧ labels example_encoding !! i = Some 20%nat
      ∧ ∀ j, labels example_encoding !! j = Some 20%nat → (j <= i)%nat.
Proof.
  assert (Forall (instance_ok example_encoding true true) [(1, 10)%nat])
    as Hpre.
  { apply Forall_singleton. split; [by eexists|].
    repeat apply Forall_cons_2; try apply Forall_nil_2;
      (split; [done|]); intros _;
      repeat apply Forall_cons_2; try apply Forall_nil_2;
      (by left) || (by right). }
  assert (20%nat ∈ labels example_encoding) as Hl by (simpl; right; left).
  split_and!; [done | done | done |].
  apply (write_megam_file_label_roundtrip (H := example_host)
           [(1, 10)%nat] [] (2, 20)%nat example_encoding true true false []
           eq_refl Hpre Hl).
Defined.

(** ** The Locator's and the Invoker's contracts *)

Section InvokeFacts.
Context `{System}.

Lemma config_megam_run (bin : option text) (w : World) :
  config_megam bin w =
    match lookup_megam bin with
    | (printed, Ok p) =>
        ({| _megam_bin := Some p; sys_stdout := sys_stdout w ++ printed;
            sys_stderr := sys_stderr w;
            inherited_stderr := inherited_stderr w; spawned := spawned w;
            lookups := lookups w ++ [bin] |}, Ok tt)
    | (printed, Raise e) =>
        ({| _megam_bin := _megam_bin w; sys_stdout := sys_stdout w ++ printed;
            sys_stderr := sys_stderr w;
            inherited_stderr := inherited_stderr w; spawned := spawned w;
            lookups := lookups w ++ [bin] |}, Raise e)
    end.
Proof.
  unfold config_megam, call_find_binary, lookup_megam, mbind, se_bind.
  by destruct (find_binary _ _ _ _ _) as [printed [p|e]].
Qed.

(** [call_megam] once the path of the binary is known and the child has
    run. *)
Lemma call_megam_run (args : list text) (w : World) (bin : text)
    (p : process) (printed : list text) :
  (_megam_bin w = Some bin ∧ printed = [])
  ∨ (_megam_bin w = None ∧ lookup_megam None = (printed, Ok bin)) →
  run (bin :: args) = Ok p →
  ∃ w1,
    sys_stdout w1 = sys_stdout w ++ printed
    ∧ sys_stderr w1 = sys_stderr w
    ∧ call_megam (ArgList args) w =
        if negb (returncode p =? 0) then
          ({| _megam_bin := Some bin;
              sys_stdout := (sys_stdout w1 ++ [[newline]])
                            ++ [txt "None" ++ [newline]];
              sys_stderr := sys_stderr w1;
              inherited_stderr := inherited_stderr w ++ child_stderr p;
              spawned := spawned w ++ [bin :: args];
              lookups := lookups w1 |},
           Raise (OSError "megam command failed!"))
        else
          ({| _megam_bin := Some bin; sys_stdout := sys_stdout w1;
              sys_stderr := sys_stderr w1;
              inherited_stderr := inherited_stderr w ++ child_stderr p;
              spawned := spawned w ++ [bin :: args];
              lookups := lookups w1 |},
           Ok (child_stdout p)).
Proof.
  intros Hbin Hrun. destruct w as [mb out err inh sp lk]. simpl in *.
  destruct Hbin as [[-> ->]|[-> Hfind]].
  - eexists {| _megam_bin := Some bin; sys_stdout := out; sys_stderr := err;
               inherited_stderr := inh; spawned := sp; lookups := lk |}.
    simpl. split_and!; [by rewrite app_nil_r | done |].
    unfold call_megam, mbind, se_bind, gets, popen_communicate. simpl.
    rewrite Hrun. simpl. by destruct (returncode p =? 0).
  - eexists {| _megam_bin := Some bin; sys_stdout := out ++ printed;
               sys_stderr := err; inherited_stderr := inh; spawned := sp;
               lookups := lk ++ [None] |}.
    simpl. split_and!; [done..|].
    unfold call_megam, mbind at 1 2, se_bind at 1 2, gets at 1.
    cbn [_megam_bin]. rewrite config_megam_run, Hfind.
    unfold mbind, se_bind, gets, popen_communicate. simpl.
    rewrite Hrun. simpl. by destruct (returncode p =? 0).
Qed.

End InvokeFacts.

(** C10: [config_megam] fails exactly when [find_binary] raises, with the
    same exception, and a failed call leaves [_megam_bin] as it was: a path
    set by an earlier call is still there, and a path that was not set is
    still not set. *)
Theorem config_megam_failure `{System} (bin : option text) (w : World)
    (e : exn) :
  ((config_megam bin w).2 = Raise e ↔ (lookup_megam bin).2 = Raise e)
  ∧ ((config_megam bin w).2 = Raise e →
     _megam_bin (config_megam bin w).1 = _megam_bin w
     ∧ (∀ p, _megam_bin w = Some p →
          _megam_bin (config_megam bin w).1 = Some p)
     ∧ (_megam_bin w = None → _megam_bin (config_megam bin w).1 = None)).
Proof.
  pose proof (config_megam_run bin w) as Hrun.
  destruct (lookup_megam bin) as [printed [p|e']];
    revert Hrun; generalize (config_megam bin w); intros c ->; simpl.
  - split; [split|]; intros [=].
  - split; [split; by intros [= ->]|]. intros _. by split_and!.
Qed.

Lemma config_megam_failure_witness :
  (config_megam (H := example_system) (Some (txt "/nope")) example_world).2
  = Raise (LookupError "NLTK was unable to find the file")
  ∧ _megam_bin (config_megam (H := example_system) (Some (txt "/nope"))
                  example_world).1
    = Some (txt "/usr/bin/megam").
Proof.
  split; [reflexivity|].
  destruct (config_megam_failure (H := example_system) (Some (txt "/nope"))
              example_world (LookupError "NLTK was unable to find the file"))
    as [_ Hkeep].
  destruct (Hkeep eq_refl) as (_ & Hsome & _).
  by apply Hsome.
Defined.

(** C8: given a single string, [call_megam] raises the type error and
    nothing else happens: [find_binary] is not called, no command is
    started, and [_megam_bin] is as it was. *)
Theorem call_megam_single_string `{System} (s : text) (w : World) :
  call_megam (ArgString s) w
  = (w, Raise (TypeError "args should be a list of strings"))
  ∧ lookups (call_megam (ArgString s) w).1 = lookups w
  ∧ spawned (call_megam (ArgString s) w).1 = spawned w
  ∧ _megam_bin (call_megam (ArgString s) w).1 = _megam_bin w.
Proof. done. Qed.

(** C7, as the code has it: when the child exits with a code that is not
    zero, [call_megam] writes two lines to [sys.stdout], the first of them
    empty, writes nothing to [sys.stderr], and raises [OSError]; when the
    child exits with zero it returns the bytes the child wrote to its
    standard output, as they are, and prints nothing. *)
Theorem call_megam_exit_status `{System} (args : list text) (w : World)
    (bin : text) (p : process) (printed : list text) :
  (_megam_bin w = Some bin ∧ printed = [])
  ∨ (_megam_bin w = None ∧ lookup_megam None = (printed, Ok bin)) →
  run (bin :: args) = Ok p →
  (returncode p ≠ 0 →
   ∃ w' line,
     call_megam (ArgList args) w = (w', Raise (OSError "megam command failed!"))
     ∧ sys_stdout w' = sys_stdout w ++ printed ++ [[newline]; line]
     ∧ sys_stderr w' = sys_stderr w)
  ∧ (returncode p = 0 →
     ∃ w',
       call_megam (ArgList args) w = (w', Ok (child_stdout p))
       ∧ sys_stdout w' = sys_stdout w ++ printed
       ∧ sys_stderr w' = sys_stderr w).
Proof.
  intros Hbin Hrun.
  destruct (call_megam_run args w bin p printed Hbin Hrun)
    as (w1 & Hout & Herr & ->).
  split; intros Hcode.
  - apply Z.eqb_neq in Hcode. rewrite Hcode. simpl.
    eexists _, _. split; [done|]. simpl. split; [|done].
    by rewrite Hout, <- !app_assoc.
  - rewrite Hcode. simpl. by eexists.
Qed.

Lemma call_megam_exit_status_witness :
  ((_megam_bin example_world = Some (txt "/usr/bin/megam")
    ∧ @nil text = [])
   ∨ (_megam_bin example_world = None
      ∧ lookup_megam (H := example_system) None
        = ([], Ok (txt "/usr/bin/megam"))))
  ∧ returncode {| child_stdout := list_byte_of_string "out";
                  child_stderr := list_byte_of_string "boom";
                  returncode := 1 |} ≠ 0
  ∧ ∃ w' line,
      call_megam (H := example_system) (ArgList [txt "train"]) example_world
      = (w', Raise (OSError "megam command failed!"))
      ∧ sys_stdout w' = sys_stdout example_world ++ [] ++ [[newline]; line]
      ∧ sys_stderr w' = sys_stderr example_world.
Proof.
  split_and!; [by left | done |].
  destruct (call_megam_exit_status (H := example_system) [txt "train"]
              example_world (txt "/usr/bin/megam")
              {| child_stdout := list_byte_of_string "out";
                 child_stderr := list_byte_of_string "boom";
                 returncode := 1 |} [])
    as [Hfail _]; [by left | done |].
  by apply Hfail.
Defined.

(** What the child wrote to its standard error is not what [call_megam]
    prints, and what it prints does not go to [sys.stderr]: the child's
    standard error is not piped, so [communicate] gives [None] for it, and
    [print] writes to [sys.stdout]. *)
Lemma call_megam_prints_None :
  run (System := example_system) [txt "/usr/bin/megam"; txt "train"]
  = Ok {| child_stdout := list_byte_of_string "out";
          child_stderr := list_byte_of_string "boom";
          returncode := 1 |}
  ∧ call_megam (H := example_system) (ArgList [txt "train"]) example_world
    = ({| _megam_bin := Some (txt "/usr/bin/megam");
          sys_stdout := [[newline]; txt "None" ++ [newline]];
          sys_stderr := [];
          inherited_stderr := list_byte_of_string "boom";
          spawned := [[txt "/usr/bin/megam"; txt "train"]];
          lookups := [] |},
       Raise (OSError "megam command failed!")).
Proof. split; reflexivity. Qed.

(** * Further properties *)

(** ** More on the Deserializer *)

(** A loop that returns keeps what every step keeps. *)
Lemma fold_result_invariant {A B} (f : B → A → result B) (P : B → Prop)
    (xs : list A) (b b' : B) :
  (∀ b a b', P b → f b a = Ok b' → P b') →
  P b → fold_result f b xs = Ok b' → P b'.
Proof.
  intros Hinv. revert b. induction xs as [|a xs IH]; intros b Hb Hf.
  - simpl in Hf. by simplify_eq.
  - cbn [fold_result] in Hf. destruct (f b a) as [b1|e] eqn:Hfa; [|done].
    apply (IH b1); [by eapply Hinv | done].
Qed.

Section ParseMore.
Context `{PyHost}.

(** The tokens of a line that is not rejected are stored. *)
Lemma store_tokens_accepted (n : Z) (weights : list float) (line : text) :
  0 <= n → length weights = Z.to_nat n →
  split line ≠ [] → ¬ rejected n line →
  ∃ i x, tokens_entry (split line) = Some (i, x) ∧ - n <= i < n
         ∧ store_tokens weights (split line)
           = Ok (<[Z.to_nat (array_position n i) := x]> weights).
Proof.
  intros Hn Hlen Hne Hnr. unfold rejected in Hnr.
  destruct (split line) as [|fid [|weight [|? ?]]]; [done | by destruct Hnr | |
    by destruct Hnr].
  simpl. destruct (py_float weight) as [x|]; [|destruct Hnr; by left].
  destruct (py_int fid) as [i|]; [|destruct Hnr; right; by left].
  assert (- n <= i < n) as Hi.
  { destruct (decide (i < - n)); [destruct Hnr; right; right; by exists i; auto|].
    destruct (decide (n <= i)); [destruct Hnr; right; right; by exists i; auto|].
    lia. }
  exists i, x. split_and!; [done | lia | lia |].
  unfold numpy_setitem, array_position. rewrite Hlen.
  destruct (i <? 0) eqn:Hneg.
  - apply Z.ltb_lt in Hneg.
    replace (0 <=? i) with false by (symmetry; apply Z.leb_gt; lia).
    replace (- Z.of_nat (Z.to_nat n) <=? i) with true
      by (symmetry; apply Z.leb_le; lia).
    simpl. do 3 f_equal. lia.
  - apply Z.ltb_ge in Hneg.
    replace (0 <=? i) with true by (symmetry; apply Z.leb_le; lia).
    replace (i <? Z.of_nat (Z.to_nat n)) with true
      by (symmetry; apply Z.ltb_lt; lia).
    done.
Qed.

(** The tokens of a rejected line are not stored. *)
Lemma store_tokens_rejected (n : Z) (weights : list float) (line : text) :
  0 <= n → length weights = Z.to_nat n → rejected n line →
  raises (store_tokens weights (split line)).
Proof.
  intros Hn Hw Hrej. unfold rejected in Hrej. unfold store_tokens.
  destruct (split line) as [|fid [|weight [|? ?]]];
    [done | by eexists | | by eexists].
  destruct (py_float weight) as [x|]; [|by eexists].
  destruct (py_int fid) as [i|]; [|by eexists].
  destruct Hrej as [?|[?|(i' & ? & Hi)]]; [done..|]. simplify_eq.
  unfold numpy_setitem. rewrite Hw. destruct Hi as [Hi|Hi].
  - replace (0 <=? i') with false by (symmetry; apply Z.leb_gt; lia).
    replace (- Z.of_nat (Z.to_nat n) <=? i') with false
      by (symmetry; apply Z.leb_gt; lia).
    by eexists.
  - replace (i' <? Z.of_nat (Z.to_nat n)) with false
      by (symmetry; apply Z.ltb_ge; lia).
    replace (i' <? 0) with false by (symmetry; apply Z.ltb_ge; lia).
    rewrite !andb_false_r. by eexists.
Qed.

Lemma fold_store_accepted (n : Z) (lines : list text) (weights : list float) :
  0 <= n → length weights = Z.to_nat n →
  Forall (fun line => ¬ rejected n line) lines →
  ∃ v, fold_result store_tokens weights
         (filter (fun toks => toks ≠ []) (split <$> lines)) = Ok v
       ∧ length v = Z.to_nat n
       ∧ ∀ k a, 0 <= k < n → weights !! Z.to_nat k = Some a →
           v !! Z.to_nat k
           = Some (last_weight_from k a (positions n (omap line_entry lines))).
Proof.
  intros Hn Hlen Hall. revert weights Hlen.
  induction Hall as [|line lines Hline _ IH]; intros weights Hlen.
  - exists weights. by split_and!.
  - rewrite fmap_cons. cbn [omap list_omap]. unfold line_entry at 1.
    destruct (decide (split line = [])) as [Hnil|Hne].
    + rewrite Hnil, filter_cons_False by (intros Hs; by apply Hs).
      simpl. by apply IH.
    + rewrite filter_cons_True by done.
      destruct (store_tokens_accepted n weights line Hn Hlen Hne Hline)
        as (i & x & He & Hi & Hs).
      destruct (IH (<[Z.to_nat (array_position n i) := x]> weights))
        as (v & Hv & Hvl & Hvk).
      { by rewrite length_insert. }
      exists v. cbn [fold_result]. rewrite Hs. split_and!; [done..|].
      intros k a Hk Ha. rewrite He. unfold positions. rewrite fmap_cons.
      unfold last_weight_from. simpl foldl.
      assert (0 <= array_position n i < n) as Hp.
      { unfold array_position. destruct (i <? 0) eqn:Hneg; lia. }
      destruct (decide (array_position n i = k)) as [Heq|Hneq].
      * rewrite Heq, Z.eqb_refl. apply Hvk; [done|].
        rewrite Heq. apply list_lookup_insert_eq. lia.
      * apply Z.eqb_neq in Hneq as Hneq'. rewrite Hneq'. apply Hvk; [done|].
        rewrite list_lookup_insert_ne by lia. done.
Qed.

End ParseMore.

(** ** The Deserializer on every output *)

Section ParseContract.
Context `{PyHost}.

Lemma parse_megam_weights_tokens_eq (s : list byte) (n : Z) (explicit : bool)
    (t : text) :
  decode s = Ok t →
  parse_megam_weights s n explicit =
    if negb numpy_installed then
      Raise (ValueError "This function requires that numpy be installed")
    else if negb explicit then
      Raise (AssertionError "non-explicit not supported yet")
    else
      numpy_zeros n ≫= fun weights =>
      fold_result store_tokens weights (line_tokens t).
Proof.
  intros Hs. unfold parse_megam_weights. rewrite Hs.
  destruct numpy_installed; [|done]. destruct explicit; [|done]. simpl.
  destruct (numpy_zeros n) as [weights|e]; simpl; [|done].
  by rewrite fold_store_line, <- line_tokens_strip.
Qed.

End ParseContract.

(** X1: with numpy present, [explicit] true, a length [n >= 0] and an output
    that decodes, [parse_megam_weights] returns a vector exactly when no line
    is rejected: every line is blank or has two numeric tokens whose first
    is an index with [-n <= i < n]. *)
Theorem parse_megam_weights_returns_iff `{PyHost} (s : list byte) (n : Z)
    (t : text) :
  numpy_installed = true → 0 <= n → decode s = Ok t →
  (∃ v, parse_megam_weights s n true = Ok v)
  ↔ Forall (fun line => ¬ rejected n line) (split_on newline t).
Proof.
  intros Hnp Hn Hs. rewrite (parse_megam_weights_tokens_eq s n true t Hs), Hnp.
  simpl negb. cbv iota. unfold numpy_zeros.
  replace (n <? 0) with false by (symmetry; apply Z.ltb_ge; lia).
  cbn [mbind result_bind]. split.
  - intros [v Hv]. apply Forall_forall. intros line Hline Hrej.
    assert (raises (fold_result store_tokens
                      (replicate (Z.to_nat n) 0%float) (line_tokens t)))
      as [e He]; [|by rewrite He in Hv].
    apply (fold_result_raises store_tokens
             (fun w => length w = Z.to_nat n) _ (split line)).
    + intros w toks w' Hw Hst. by rewrite (store_tokens_length _ _ _ Hst).
    + apply length_replicate.
    + unfold line_tokens. apply list_elem_of_filter. split.
      * intros Hnil. unfold rejected in Hrej. by rewrite Hnil in Hrej.
      * by apply list_elem_of_fmap_2.
    + intros w Hw. by apply (store_tokens_rejected n).
  - intros Hall.
    destruct (fold_store_accepted n (split_on newline t)
                (replicate (Z.to_nat n) 0%float) Hn (length_replicate _ _) Hall)
      as (v & Hv & _).
    by exists v.
Qed.

Lemma parse_megam_weights_returns_iff_witness :
  numpy_installed (PyHost := example_host) = true
  ∧ 0 <= 2
  ∧ decode (list_byte_of_string "1 0.5") = Ok (txt "1 0.5")
  ∧ ((∃ v, parse_megam_weights (H := example_host)
             (list_byte_of_string "1 0.5") 2 true = Ok v)
     ↔ Forall (fun line => ¬ rejected (H := example_host) 2 line)
              (split_on newline (txt "1 0.5"))).
Proof.
  split_and!; [reflexivity | lia | reflexivity |].
  apply (parse_megam_weights_returns_iff (H := example_host));
    [reflexivity | lia | reflexivity].
Defined.

(** X2: under the same conditions, when no line is rejected the vector
    returned has length [n], and position [k] holds the last weight of the
    lines that name it, directly or as [k - n] counted from the end, and
    zero when no line does. *)
Theorem parse_megam_weights_positions `{PyHost} (s : list byte) (n : Z)
    (t : text) :
  numpy_installed = true → 0 <= n → decode s = Ok t →
  Forall (fun line => ¬ rejected n line) (split_on newline t) →
  ∃ v, parse_megam_weights s n true = Ok v
       ∧ length v = Z.to_nat n
       ∧ ∀ k, 0 <= k < n →
           v !! Z.to_nat k = Some (last_weight k (positions n (entries t))).
Proof.
  intros Hnp Hn Hs Hall.
  rewrite (parse_megam_weights_tokens_eq s n true t Hs), Hnp.
  simpl negb. cbv iota. unfold numpy_zeros.
  replace (n <? 0) with false by (symmetry; apply Z.ltb_ge; lia).
  cbn [mbind result_bind].
  destruct (fold_store_accepted n (split_on newline t)
              (replicate (Z.to_nat n) 0%float) Hn (length_replicate _ _) Hall)
    as (v & Hv & Hlen & Hk).
  exists v. split_and!; [done..|]. intros k Hr.
  by apply Hk, replicate_lookup_zero.
Qed.

Lemma parse_megam_weights_positions_witness :
  numpy_installed (PyHost := example_host) = true
  ∧ 0 <= 3
  ∧ decode (list_byte_of_string "0 0.5
-3 2
-1 7") = Ok (txt "0 0.5
-3 2
-1 7")
  ∧ ∃ v, parse_megam_weights (H := example_host) (list_byte_of_string "0 0.5
-3 2
-1 7") 3 true = Ok v
         ∧ v = [2; 0; 7]%float.
Proof.
  split_and!; [reflexivity | lia | reflexivity |].
  destruct (parse_megam_weights_positions (H := example_host)
              (list_byte_of_string "0 0.5
-3 2
-1 7") 3 (txt "0 0.5
-3 2
-1 7")) as (v & Hv & _); [reflexivity | lia | reflexivity | |].
  - repeat apply Forall_cons_2; [| | |apply Forall_nil_2];
      intros [?|[?|(i & Hi & ?)]]; try done;
      vm_compute in Hi; simplify_eq; lia.
  - exists v. split; [done|]. vm_compute in Hv. by simplify_eq.
Defined.

(** X3: [parse_megam_weights] returns only when numpy is present, [explicit]
    is true and the length asked for is not negative, and the vector it
    returns always has that length, whatever the output holds. *)
Theorem parse_megam_weights_length `{PyHost} (s : list byte) (n : Z)
    (explicit : bool) (v : list float) :
  parse_megam_weights s n explicit = Ok v →
  numpy_installed = true ∧ explicit = true ∧ 0 <= n
  ∧ Z.of_nat (length v) = n.
Proof.
  unfold parse_megam_weights. intros Hv.
  destruct numpy_installed; [|done]. destruct explicit; [|done].
  simpl in Hv. destruct (decode s) as [t|]; [|done]. simpl in Hv.
  unfold numpy_zeros in Hv. destruct (n <? 0) eqn:Hn; [done|].
  apply Z.ltb_ge in Hn. simpl in Hv. split_and!; [done..|].
  assert (length v = Z.to_nat n) as Hlen; [|lia].
  eapply (fold_result_invariant store_line
            (fun w => length w = Z.to_nat n)); [|apply length_replicate|exact Hv].
  intros w line w' Hw Hst. rewrite store_line_tokens in Hst.
  destruct (split line) as [|fid toks]; [by simplify_eq|].
  by rewrite (store_tokens_length _ _ _ Hst).
Qed.

(** X4: the outcome depends only on the tokens of the lines that are not
    blank: two outputs that decode to texts with the same such tokens, line
    by line, give the same vector or the same exception, whatever blank
    lines and spacing they differ in. *)
Theorem parse_megam_weights_tokens `{PyHost} (s s' : list byte) (n : Z)
    (explicit : bool) (t t' : text) :
  decode s = Ok t → decode s' = Ok t' →
  line_tokens t = line_tokens t' →
  parse_megam_weights s n explicit = parse_megam_weights s' n explicit.
Proof.
  intros Hs Hs' Ht.
  by rewrite (parse_megam_weights_tokens_eq s n explicit t Hs),
    (parse_megam_weights_tokens_eq s' n explicit t' Hs'), Ht.
Qed.

Lemma parse_megam_weights_tokens_witness :
  decode (list_byte_of_string "1 0.5
0 2") = Ok (txt "1 0.5
0 2")
  ∧ decode (list_byte_of_string "

  1    0.5  

0 2
") = Ok (txt "

  1    0.5  

0 2
")
  ∧ line_tokens (txt "1 0.5
0 2") = line_tokens (txt "

  1    0.5  

0 2
")
  ∧ parse_megam_weights (H := example_host) (list_byte_of_string "1 0.5
0 2") 2 true
    = parse_megam_weights (H := example_host) (list_byte_of_string "

  1    0.5  

0 2
") 2 true.
Proof.
  split_and!; [reflexivity | reflexivity | reflexivity |].
  by apply (parse_megam_weights_tokens (H := example_host) _ _ 2 true
              (txt "1 0.5
0 2") (txt "

  1    0.5  

0 2
")).
Defined.

Lemma parse_megam_weights_length_witness :
  parse_megam_weights (H := example_host) (list_byte_of_string "3 0.5") 5 true
  = Ok [0; 0; 0; 0.5; 0]%float
  ∧ numpy_installed (PyHost := example_host) = true ∧ true = true ∧ 0 <= 5
  ∧ Z.of_nat (length [0; 0; 0; 0.5; 0]%float) = 5.
Proof.
  split; [reflexivity|].
  by apply (parse_megam_weights_length (H := example_host)
              (list_byte_of_string "3 0.5")).
Defined.

(** ** More on the Serializer *)

(** A loop unrolls over a concatenation. *)
Lemma for_each_app {S A} (xs ys : list A) (body : A → SE S unit) (s : S) :
  for_each (xs ++ ys) body s
  = (for_each xs body ≫= fun _ => for_each ys body) s.
Proof.
  revert s. induction xs as [|x xs IH]; intros s; [done|].
  simpl. unfold mbind, se_bind in *.
  destruct (body x s) as [s1 [[]|e]]; [apply IH | done].
Qed.

Section Uniform.
Context {A : Type}.

(** A loop whose steps write the same texts for both kinds of stream does
    so too. *)
Lemma for_each_emits_all (body : bool → A → SE (list chunk) unit)
    (xs : list A) :
  (∀ x, x ∈ xs → ∃ log r, ∀ bin, emits bin (body bin x) log r) →
  ∃ log r, ∀ bin, emits bin (for_each xs (body bin)) log r.
Proof.
  induction xs as [|x xs IH]; intros Hbody.
  - exists [], (Ok tt). intros bin. apply emits_ret.
  - destruct (Hbody x) as (l1 & r1 & H1); [left|].
    destruct IH as (l2 & r2 & H2).
    { intros y Hy. apply Hbody. by right. }
    destruct r1 as [[]|e].
    + exists (l1 ++ l2), r2. intros bin. by eapply emits_bind_ok.
    + exists l1, (Raise e). intros bin. by apply emits_bind_raise.
Qed.

End Uniform.

Lemma write_feature_emits_all (bernoulli : bool) (f : Z * Z) :
  ∃ log r, ∀ bin,
    emits bin (write_feature (stream_of bin) bernoulli f) log r.
Proof.
  destruct f as [fid fval]. unfold write_feature.
  destruct bernoulli; [destruct (fval =? 1); [|destruct (fval =? 0)]|];
    simpl; eexists _, _; intros bin;
    first [apply emits_stream | apply emits_ret | apply emits_raise].
Qed.

Lemma write_megam_features_emits_all (bernoulli : bool)
    (vector : list (Z * Z)) :
  ∃ log r, ∀ bin,
    emits bin (_write_megam_features vector (stream_of bin) bernoulli) log r.
Proof.
  unfold _write_megam_features. case_bool_decide.
  - eexists _, _. intros bin. apply emits_raise.
  - apply (for_each_emits_all
             (fun bin => write_feature (stream_of bin) bernoulli)).
    intros f _. apply write_feature_emits_all.
Qed.

Section UniformFile.
Context {FS L C : Type} `{Countable L} `{PyStr C}.
Context (encoding : Encoding FS L C) (bernoulli explicit : bool).

Lemma write_instance_emits_all (tok : FS * L) :
  ∃ log r, ∀ bin,
    emits bin (write_instance encoding (labels encoding)
                 (labelnum_of (labels encoding)) (stream_of bin)
                 bernoulli explicit tok) log r.
Proof.
  destruct tok as [featureset label]. unfold write_instance.
  assert (∃ log r, ∀ bin,
            emits bin (write_header encoding (labels encoding)
                         (labelnum_of (labels encoding)) (stream_of bin)
                         featureset label) log r) as (lh & rh & Hh).
  { unfold write_header. destruct (cost encoding) as [c|];
      [|destruct (labelnum_of (labels encoding) !! label)];
      eexists _, _; intros bin;
      first [apply emits_stream | apply emits_raise]. }
  assert (∃ log r, ∀ bin,
            emits bin (write_blocks encoding (labels encoding) (stream_of bin)
                         bernoulli explicit featureset label) log r)
    as (lb & rb & Hb).
  { unfold write_blocks. destruct explicit; simpl negb; cbv iota.
    - apply (for_each_emits_all
               (fun bin l =>
                  stream_of bin (txt " #") ≫= fun _ =>
                  _write_megam_features (encode encoding featureset l)
                    (stream_of bin) bernoulli)).
      intros l _.
      destruct (write_megam_features_emits_all bernoulli
                  (encode encoding featureset l)) as (log & r & Hw).
      exists ([txt " #"] ++ log), r. intros bin.
      eapply emits_bind_ok; [apply emits_stream | apply Hw].
    - apply write_megam_features_emits_all. }
  destruct rh as [[]|e].
  2:{ exists lh, (Raise e). intros bin. by apply emits_bind_raise. }
  destruct rb as [[]|e].
  2:{ exists (lh ++ lb), (Raise e). intros bin.
      eapply emits_bind_ok; [apply Hh|]. by apply emits_bind_raise. }
  exists (lh ++ lb ++ [[newline]]), (Ok tt). intros bin.
  eapply emits_bind_ok; [apply Hh|].
  eapply emits_bind_ok; [apply Hb | apply emits_stream].
Qed.

End UniformFile.

(** X5: [write_megam_file] only appends to the stream.  The texts it writes
    and its outcome depend neither on what the stream holds nor on
    [bin_stream]: with [bin_stream] the stream receives, one for one, the
    UTF-8 encodings of the texts it receives without. *)
Theorem write_megam_file_appends {FS L C : Type} `{Countable L} `{PyStr C}
    (train_toks : list (FS * L)) (encoding : Encoding FS L C)
    (bernoulli explicit : bool) :
  ∃ (log : list text) (r : result unit), ∀ (s : list chunk),
    write_megam_file train_toks encoding bernoulli explicit false s
    = (s ++ (Str <$> log), r)
    ∧ write_megam_file train_toks encoding bernoulli explicit true s
      = (s ++ ((fun t => Bytes (utf8_encode t)) <$> log), r).
Proof.
  destruct (for_each_emits_all
              (fun bin =>
                 write_instance encoding (labels encoding)
                   (labelnum_of (labels encoding)) (stream_of bin)
                   bernoulli explicit) train_toks) as (log & r & Hw).
  { intros tok _. apply write_instance_emits_all. }
  exists log, r. intros s. split; [apply (Hw false) | apply (Hw true)].
Qed.

(** X6: writing a training set in two parts to the same stream is writing
    it whole: the second part is written after the first when the first
    returns, and is not written when the first raises. *)
Theorem write_megam_file_app {FS L C : Type} `{Countable L} `{PyStr C}
    (toks1 toks2 : list (FS * L)) (encoding : Encoding FS L C)
    (bernoulli explicit bin_stream : bool) (s : list chunk) :
  write_megam_file (toks1 ++ toks2) encoding bernoulli explicit bin_stream s
  = match write_megam_file toks1 encoding bernoulli explicit bin_stream s with
    | (s1, Ok _) =>
        write_megam_file toks2 encoding bernoulli explicit bin_stream s1
    | (s1, Raise e) => (s1, Raise e)
    end.
Proof. unfold write_megam_file. apply for_each_app. Qed.

(** X7: the exceptions of [write_megam_file] and what each one tells.  A
    [KeyError] means that the encoding has no cost and some training pair
    has a label that is not one of the encoding's; the always-on error means
    that some vector written is empty; the binary-value error means
    bernoulli mode and a vector written with a value other than 0 and 1.
    No other exception is raised. *)
Theorem write_megam_file_exceptions {FS L C : Type} `{Countable L} `{PyStr C}
    (train_toks : list (FS * L)) (encoding : Encoding FS L C)
    (bernoulli explicit bin_stream : bool) (s : list chunk) (e : exn) :
  (write_megam_file train_toks encoding bernoulli explicit bin_stream s).2
  = Raise e →
  (e = KeyError ∧ cost encoding = None
   ∧ ∃ tok, tok ∈ train_toks ∧ tok.2 ∉ labels encoding)
  ∨ (e = ValueError always_on_msg
     ∧ ∃ tok l, tok ∈ train_toks ∧ l ∈ block_labels encoding explicit tok
                ∧ encode encoding tok.1 l = [])
  ∨ (e = ValueError binary_msg ∧ bernoulli = true
     ∧ ∃ tok l, tok ∈ train_toks ∧ l ∈ block_labels encoding explicit tok
                ∧ ¬ Forall binary_value (encode encoding tok.1 l)).
Proof.
  destruct (write_megam_file_cases bin_stream encoding bernoulli explicit
              train_toks)
    as [[_ Hw]|(pre & tok & post & log & e' & -> & _ & _ & He & Hw)];
    rewrite Hw; simpl; [done|]. intros [= ->].
  assert (tok ∈ pre ++ tok :: post) as Htok.
  { apply elem_of_app. right. left. }
  destruct He as [[-> Hn]|(_ & l & Hl & [[-> Hnil]|(-> & Hb & Hv)])].
  - left. unfold header_text, label_index in Hn.
    destruct (cost encoding) as [c|]; [done|]. split_and!; [done..|].
    exists tok. split; [done|].
    pose proof (labelnum_of_lookup (labels encoding) tok.2) as Hlook.
    by destruct (labelnum_of (labels encoding) !! tok.2).
  - right. left. split; [done|]. by exists tok, l.
  - right. right. split_and!; [done..|]. by exists tok, l.
Qed.

Lemma write_megam_file_exceptions_witness :
  (write_megam_file [(1, 30)%nat] example_encoding true true false []).2
  = Raise KeyError
  ∧ ((KeyError = KeyError ∧ cost example_encoding = None
      ∧ ∃ tok, tok ∈ [(1, 30)%nat] ∧ tok.2 ∉ labels example_encoding)
     ∨ (KeyError = ValueError always_on_msg
        ∧ ∃ tok l, tok ∈ [(1, 30)%nat]
                   ∧ l ∈ block_labels example_encoding true tok
                   ∧ encode example_encoding tok.1 l = [])
     ∨ (KeyError = ValueError binary_msg ∧ true = true
        ∧ ∃ tok l, tok ∈ [(1, 30)%nat]
                   ∧ l ∈ block_labels example_encoding true tok
                   ∧ ¬ Forall binary_value (encode example_encoding tok.1 l))).
Proof.
  split; [reflexivity|].
  by apply (write_megam_file_exceptions [(1, 30)%nat] example_encoding
              true true false []).
Defined.

(** X9: when the labels of the encoding are distinct, the number
    [labelnum] gives a label is its position in the label order, and only
    the labels of the encoding have one. *)
Theorem labelnum_of_NoDup {L : Type} `{Countable L} (labels : list L)
    (label : L) (i : nat) :
  NoDup labels →
  labelnum_of labels !! label = Some i ↔ labels !! i = Some label.
Proof.
  intros Hnd. pose proof (labelnum_of_lookup labels label) as Hlook. split.
  - intros Hi. rewrite Hi in Hlook. by destruct Hlook.
  - intros Hi. destruct (labelnum_of labels !! label) as [j|].
    + destruct Hlook as [Hj _]. f_equal.
      by apply (NoDup_lookup labels j i label).
    + destruct Hlook. by eapply list_elem_of_lookup_2.
Qed.

Lemma labelnum_of_NoDup_witness :
  NoDup [10; 20; 30]%nat
  ∧ (labelnum_of [10; 20; 30]%nat !! 20%nat = Some 1%nat
     ↔ [10; 20; 30]%nat !! 1%nat = Some 20%nat).
Proof.
  assert (NoDup [10; 20; 30]%nat) as Hnd.
  { apply (bool_decide_unpack _). by vm_compute. }
  split; [done|]. by apply labelnum_of_NoDup.
Defined.

Lemma newlines_app (a b : text) : newlines (a ++ b) = (newlines a + newlines b)%nat.
Proof. unfold newlines. by rewrite filter_app, length_app. Qed.

Lemma newlines_free (t : text) :
  Forall (fun c => c ≠ newline) t → newlines t = 0%nat.
Proof.
  unfold newlines. induction 1 as [|c t Hc _ IH]; [done|].
  by rewrite filter_cons_False.
Qed.

Lemma newlines_concat_free (ts : list text) :
  Forall (Forall (fun c => c ≠ newline)) ts → newlines (concat ts) = 0%nat.
Proof.
  induction 1 as [|t ts Ht _ IH]; [done|].
  simpl. by rewrite newlines_app, IH, newlines_free.
Qed.

Lemma str_int_no_newline (z : Z) : Forall (fun c => c ≠ newline) (str_int z).
Proof.
  assert (∀ n, Forall (fun c => c ≠ newline) (digits n)) as Hd.
  { intros n. destruct (digits_spec n) as (_ & Hds & _).
    eapply Forall_impl; [exact Hds|]. intros c Hc. by digit_cases Hc. }
  unfold str_int. destruct (z <? 0); [|apply Hd].
  apply Forall_cons_2; [done | apply Hd].
Qed.

Lemma feature_block_no_newline (bernoulli : bool) (vector : list (Z * Z)) :
  Forall (Forall (fun c => c ≠ newline)) (feature_block bernoulli vector).
Proof.
  assert (Forall (fun c => c ≠ newline) (txt " ")) as Hsp.
  { change (txt " ") with [32%N]. by apply Forall_singleton. }
  unfold feature_block.
  induction vector as [|[fid fval] vector IH]; [apply Forall_nil_2|].
  rewrite bind_cons. apply Forall_app. split; [|exact IH].
  unfold feature_tokens. cbn [fst snd].
  destruct bernoulli; [destruct (fval =? 1)|].
  - apply Forall_singleton, Forall_app. split; [done|].
    apply str_int_no_newline.
  - apply Forall_nil_2.
  - apply Forall_singleton.
    repeat (apply Forall_app; split); try done; apply str_int_no_newline.
Qed.

Section Lines.
Context {FS L C : Type} `{Countable L} `{PyStr C}.
Context (encoding : Encoding FS L C) (bernoulli explicit : bool).

Lemma instance_line_newlines (tok : FS * L) :
  cost encoding = None →
  newlines (concat (instance_line encoding bernoulli explicit tok)) = 1%nat.
Proof.
  intros Hc. unfold instance_line.
  rewrite concat_cons, concat_app, !newlines_app.
  change (newlines (concat [[newline]])) with 1%nat.
  assert (newlines (default [] (header_text encoding tok)) = 0%nat) as ->.
  { unfold header_text. rewrite Hc.
    destruct (label_index encoding tok.2) as [i|]; [|done]. simpl.
    apply newlines_free, str_int_no_newline. }
  assert (newlines
            (concat (concat (instance_blocks encoding bernoulli explicit tok)))
          = 0%nat) as ->; [|done].
  apply newlines_concat_free. unfold instance_blocks.
  rewrite concat_fmap_bind.
  induction (block_labels encoding explicit tok) as [|l ls IH];
    [apply Forall_nil_2|].
  rewrite bind_cons. apply Forall_app. split; [|exact IH].
  unfold instance_block. apply Forall_app. split.
  - destruct explicit; [|apply Forall_nil_2]. apply Forall_singleton.
    change (txt " #") with [32%N; 35%N]. by repeat apply Forall_cons_2.
  - apply feature_block_no_newline.
Qed.

Lemma file_newlines (train_toks : list (FS * L)) :
  cost encoding = None →
  newlines (concat (train_toks ≫= instance_line encoding bernoulli explicit))
  = length train_toks.
Proof.
  intros Hc. induction train_toks as [|tok toks IH]; [done|].
  rewrite bind_cons, concat_app, newlines_app, IH.
  by rewrite instance_line_newlines.
Qed.

End Lines.

(** X8: one line per instance.  When an encoding without a cost is written
    and [write_megam_file] returns, the texts written hold exactly as many
    newline characters as there are training pairs, and the last text
    written is the newline. *)
Theorem write_megam_file_one_line_per_instance {FS L C : Type}
    `{Countable L} `{PyStr C} (train_toks : list (FS * L))
    (encoding : Encoding FS L C) (bernoulli explicit bin_stream : bool)
    (s : list chunk) :
  cost encoding = None →
  (write_megam_file train_toks encoding bernoulli explicit bin_stream s).2
  = Ok tt →
  ∃ log,
    write_megam_file train_toks encoding bernoulli explicit bin_stream s
    = (s ++ (chunk_of bin_stream <$> log), Ok tt)
    ∧ newlines (concat log) = length train_toks
    ∧ (train_toks ≠ [] → last log = Some [newline]).
Proof.
  intros Hc.
  destruct (write_megam_file_cases bin_stream encoding bernoulli explicit
              train_toks)
    as [[_ Hw]|(pre & tok & post & log & e' & -> & _ & _ & _ & Hw)];
    rewrite Hw; simpl; [|done]. intros _.
  exists (train_toks ≫= instance_line encoding bernoulli explicit).
  split_and!; [done | by apply file_newlines |].
  intros Hne. destruct train_toks as [|tok toks _] using rev_ind; [done|].
  rewrite bind_app, bind_singleton. unfold instance_line.
  by rewrite app_comm_cons, !app_assoc, last_snoc.
Qed.

Lemma write_megam_file_one_line_per_instance_witness :
  cost example_encoding = None
  ∧ (write_megam_file [(1, 10); (2, 20)]%nat example_encoding true false
       false []).2 = Ok tt
  ∧ ∃ log,
      write_megam_file [(1, 10); (2, 20)]%nat example_encoding true false
        false []
      = ([] ++ (chunk_of false <$> log), Ok tt)
      ∧ newlines (concat log) = length [(1, 10); (2, 20)]%nat
      ∧ ([(1, 10); (2, 20)]%nat ≠ [] → last log = Some [newline]).
Proof.
  split_and!; [reflexivity | reflexivity |].
  by apply (write_megam_file_one_line_per_instance [(1, 10); (2, 20)]%nat
              example_encoding true false false []).
Defined.

(** ** More on the Invoker *)

Section InvokeMore.
Context `{System}.

(** Every path through [call_megam] on a list of arguments. *)
Lemma call_megam_paths (args : list text) (w : World) :
  call_megam (ArgList args) w =
    match resolve w with
    | (w1, Raise e) => (w1, Raise e)
    | (w1, Ok bin) =>
        match run (bin :: args) with
        | Raise e => (w1, Raise e)
        | Ok p =>
            if negb (returncode p =? 0) then
              ({| _megam_bin := _megam_bin w1;
                  sys_stdout := (sys_stdout w1 ++ [[newline]])
                                ++ [txt "None" ++ [newline]];
                  sys_stderr := sys_stderr w1;
                  inherited_stderr := inherited_stderr w1 ++ child_stderr p;
                  spawned := spawned w1 ++ [bin :: args];
                  lookups := lookups w1 |},
               Raise (OSError "megam command failed!"))
            else
              ({| _megam_bin := _megam_bin w1; sys_stdout := sys_stdout w1;
                  sys_stderr := sys_stderr w1;
                  inherited_stderr := inherited_stderr w1 ++ child_stderr p;
                  spawned := spawned w1 ++ [bin :: args];
                  lookups := lookups w1 |},
               Ok (child_stdout p))
        end
    end.
Proof.
  unfold resolve. destruct w as [mb out err inh sp lk]. simpl.
  destruct mb as [bin|].
  - unfold call_megam, mbind, se_bind, gets, popen_communicate. simpl.
    destruct (run (bin :: args)) as [p|e]; [|done]. simpl.
    by destruct (returncode p =? 0).
  - unfold call_megam, mbind at 1 2, se_bind at 1 2, gets at 1.
    cbn [_megam_bin]. rewrite config_megam_run.
    destruct (lookup_megam None) as [printed [bin|e]]; [|done].
    unfold mbind, se_bind, gets, popen_communicate. simpl.
    destruct (run (bin :: args)) as [p|e]; [|done]. simpl.
    by destruct (returncode p =? 0).
Qed.

End InvokeMore.

(** X10: when the path of the binary is set, [call_megam] does not search
    for it and does not change it; the command it starts is that path
    followed by the arguments, and an exception of [Popen] is passed on
    with nothing else done. *)
Theorem call_megam_configured `{System} (args : list text) (w : World)
    (bin : text) :
  _megam_bin w = Some bin →
  lookups (call_megam (ArgList args) w).1 = lookups w
  ∧ _megam_bin (call_megam (ArgList args) w).1 = Some bin
  ∧ (∀ p, run (bin :: args) = Ok p →
       spawned (call_megam (ArgList args) w).1 = spawned w ++ [bin :: args])
  ∧ (∀ e, run (bin :: args) = Raise e →
       call_megam (ArgList args) w = (w, Raise e)).
Proof.
  intros Hbin. rewrite call_megam_paths. unfold resolve. rewrite Hbin.
  destruct (run (bin :: args)) as [p|e].
  - destruct (negb (returncode p =? 0)); simpl;
      (split_and!; [done | done | by intros ? [= <-] | done]).
  - simpl. split_and!; [done | done | done | by intros ? [= <-]].
Qed.

Lemma call_megam_configured_witness :
  _megam_bin example_world = Some (txt "/usr/bin/megam")
  ∧ lookups (call_megam (H := example_system) (ArgList [txt "train"])
               example_world).1 = lookups example_world
  ∧ spawned (call_megam (H := example_system) (ArgList [txt "train"])
               example_world).1
    = spawned example_world ++ [[txt "/usr/bin/megam"; txt "train"]].
Proof.
  split; [reflexivity|].
  destruct (call_megam_configured (H := example_system) [txt "train"]
              example_world (txt "/usr/bin/megam") eq_refl)
    as (Hl & _ & Hs & _).
  split; [exact Hl|]. by eapply Hs.
Defined.

(** X11: when the path is not set and the search for the binary fails,
    [call_megam] raises the exception of the search: no command is started,
    the path stays unset, and the search was made once, for no explicit
    path. *)
Theorem call_megam_lookup_failure `{System} (args : list text) (w : World)
    (printed : list text) (e : exn) :
  _megam_bin w = None → lookup_megam None = (printed, Raise e) →
  (call_megam (ArgList args) w).2 = Raise e
  ∧ spawned (call_megam (ArgList args) w).1 = spawned w
  ∧ _megam_bin (call_megam (ArgList args) w).1 = None
  ∧ lookups (call_megam (ArgList args) w).1 = lookups w ++ [None]
  ∧ sys_stdout (call_megam (ArgList args) w).1 = sys_stdout w ++ printed.
Proof.
  intros Hbin Hfind. rewrite call_megam_paths. unfold resolve.
  by rewrite Hbin, Hfind.
Qed.

Lemma call_megam_lookup_failure_witness :
  _megam_bin fresh_world = None
  ∧ lookup_megam (H := bare_system) None
    = ([], Raise (LookupError "NLTK was unable to find the file"))
  ∧ (call_megam (H := bare_system) (ArgList [txt "train"]) fresh_world).2
    = Raise (LookupError "NLTK was unable to find the file")
  ∧ spawned (call_megam (H := bare_system) (ArgList [txt "train"])
               fresh_world).1 = spawned fresh_world.
Proof.
  split; [reflexivity|]. split; [reflexivity|].
  destruct (call_megam_lookup_failure (H := bare_system) [txt "train"]
              fresh_world [] (LookupError "NLTK was unable to find the file")
              eq_refl eq_refl) as (Hr & Hs & _).
  by split.
Defined.

(** X12: the path is searched for once.  When it is not set and the search
    finds [bin], the call leaves [bin] as the path, whatever the child does,
    and a later call does not search again. *)
Theorem call_megam_configures_once `{System} (args args' : list text)
    (w : World) (printed : list text) (bin : text) :
  _megam_bin w = None → lookup_megam None = (printed, Ok bin) →
  _megam_bin (call_megam (ArgList args) w).1 = Some bin
  ∧ lookups (call_megam (ArgList args) w).1 = lookups w ++ [None]
  ∧ lookups (call_megam (ArgList args')
               (call_megam (ArgList args) w).1).1
    = lookups w ++ [None].
Proof.
  intros Hbin Hfind.
  assert (_megam_bin (call_megam (ArgList args) w).1 = Some bin
          ∧ lookups (call_megam (ArgList args) w).1 = lookups w ++ [None])
    as [Hb Hl].
  { rewrite call_megam_paths. unfold resolve. rewrite Hbin, Hfind.
    destruct (run (bin :: args)) as [p|e]; [|done].
    by destruct (negb (returncode p =? 0)). }
  split_and!; [done..|].
  rewrite (call_megam_paths args'). unfold resolve. rewrite Hb.
  destruct (run (bin :: args')) as [p|e]; [|done].
  by destruct (negb (returncode p =? 0)).
Qed.

Lemma call_megam_configures_once_witness :
  _megam_bin fresh_world = None
  ∧ lookup_megam (H := example_system) None
    = ([found_msg (txt "megam") (txt "/usr/bin/megam")],
       Ok (txt "/usr/bin/megam"))
  ∧ _megam_bin (call_megam (H := example_system) (ArgList []) fresh_world).1
    = Some (txt "/usr/bin/megam")
  ∧ lookups (call_megam (H := example_system) (ArgList [txt "train"])
               (call_megam (H := example_system) (ArgList [])
                  fresh_world).1).1
    = lookups fresh_world ++ [None].
Proof.
  split; [reflexivity|]. split; [reflexivity|].
  destruct (call_megam_configures_once (H := example_system) []
              [txt "train"] fresh_world
              [found_msg (txt "megam") (txt "/usr/bin/megam")]
              (txt "/usr/bin/megam") eq_refl eq_refl) as (Hb & _ & Hl).
  by split.
Defined.

(** X14: what [call_megam] returns is what a child wrote.  When it returns
    [out], the argument was a list, the command made of the path now set
    and of that list was started and exited with code zero, and [out] is
    the standard output of that child. *)
Theorem call_megam_returns `{System} (args : arguments) (w w' : World)
    (out : list byte) :
  call_megam args w = (w', Ok out) →
  ∃ l bin p,
    args = ArgList l ∧ _megam_bin w' = Some bin
    ∧ run (bin :: l) = Ok p ∧ returncode p = 0 ∧ out = child_stdout p
    ∧ spawned w' = spawned w ++ [bin :: l].
Proof.
  destruct args as [s|l]; [done|]. rewrite call_megam_paths. unfold resolve.
  intros Hcall. exists l.
  destruct (_megam_bin w) as [bin|] eqn:Hbin;
    [|destruct (lookup_megam None) as [printed [bin|e]]; [|done]];
    (destruct (run (bin :: l)) as [p|e] eqn:Hrun; [|done]);
    (destruct (returncode p =? 0) eqn:Hcode; [|done]);
    apply Z.eqb_eq in Hcode; simpl in Hcall; simplify_eq;
    exists bin, p; by split_and!.
Qed.

Lemma call_megam_returns_witness :
  call_megam (H := example_system) (ArgList []) example_world
  = ((call_megam (H := example_system) (ArgList []) example_world).1,
     Ok (list_byte_of_string "out"))
  ∧ ∃ l bin p,
      ArgList [] = ArgList l
      ∧ _megam_bin (call_megam (H := example_system) (ArgList [])
                      example_world).1 = Some bin
      ∧ run (System := example_system) (bin :: l) = Ok p
      ∧ returncode p = 0 ∧ list_byte_of_string "out" = child_stdout p
      ∧ spawned (call_megam (H := example_system) (ArgList [])
                   example_world).1
        = spawned example_world ++ [bin :: l].
Proof.
  split; [reflexivity|].
  by apply (call_megam_returns (H := example_system) (ArgList [])
              example_world).
Defined.

(** X15: the exceptions of [call_megam] and what each one tells: the type
    error for a single string, with nothing done; the exception of the
    search for the binary, when the path was not set, with no command
    started; the exception of [Popen], with no command started; and
    [OSError] when the command was started and exited with a code other
    than zero.  No other exception is raised. *)
Theorem call_megam_exceptions `{System} (args : arguments) (w w' : World)
    (e : exn) :
  call_megam args w = (w', Raise e) →
  (∃ s, args = ArgString s
        ∧ e = TypeError "args should be a list of strings" ∧ w' = w)
  ∨ (∃ l printed, args = ArgList l ∧ _megam_bin w = None
                  ∧ lookup_megam None = (printed, Raise e)
                  ∧ spawned w' = spawned w)
  ∨ (∃ l bin, args = ArgList l ∧ _megam_bin w' = Some bin
              ∧ run (bin :: l) = Raise e ∧ spawned w' = spawned w)
  ∨ (∃ l bin p, args = ArgList l ∧ _megam_bin w' = Some bin
                ∧ run (bin :: l) = Ok p ∧ returncode p ≠ 0
                ∧ e = OSError "megam command failed!"
                ∧ spawned w' = spawned w ++ [bin :: l]).
Proof.
  destruct args as [s|l].
  { intros [= <- <-]. left. by exists s. }
  rewrite call_megam_paths. unfold resolve. intros Hcall. right.
  destruct (_megam_bin w) as [bin|] eqn:Hbin.
  - right. destruct (run (bin :: l)) as [p|e0] eqn:Hrun.
    + right. destruct (returncode p =? 0) eqn:Hcode; [done|].
      apply Z.eqb_neq in Hcode. simpl in Hcall. simplify_eq.
      exists l, bin, p. by split_and!.
    + left. simplify_eq. by exists l, bin.
  - destruct (lookup_megam None) as [printed [bin|e0]] eqn:Hfind.
    + right. destruct (run (bin :: l)) as [p|e1] eqn:Hrun.
      * right. destruct (returncode p =? 0) eqn:Hcode; [done|].
        apply Z.eqb_neq in Hcode. simpl in Hcall. simplify_eq.
        exists l, bin, p. by split_and!.
      * left. simplify_eq. by exists l, bin.
    + left. simplify_eq. by exists l, printed.
Qed.

Lemma call_megam_exceptions_witness :
  call_megam (H := bare_system) (ArgList [txt "train"]) fresh_world
  = ({| _megam_bin := None; sys_stdout := []; sys_stderr := [];
        inherited_stderr := []; spawned := []; lookups := [None] |},
     Raise (LookupError "NLTK was unable to find the file"))
  ∧ ∃ l printed,
      ArgList [txt "train"] = ArgList l ∧ _megam_bin fresh_world = None
      ∧ lookup_megam (H := bare_system) None
        = (printed, Raise (LookupError "NLTK was unable to find the file")).
Proof.
  split; [reflexivity|].
  destruct (call_megam_exceptions (H := bare_system) (ArgList [txt "train"])
              fresh_world _ _ eq_refl)
    as [(s & ? & _)|[(l & printed & Hl & Hb & Hf & _)
                    |[(l & bin & _ & ? & _)|(l & bin & p & _ & ? & _)]]];
    [done | | done | done].
  by exists l, printed.
Defined.

(** X16: when the search finds a path, [config_megam] sets it, whatever was
    set before, prints what the search printed and starts nothing; of two
    calls that find a path, the last one wins. *)
Theorem config_megam_success `{System} (bin bin' : option text) (w : World)
    (printed printed' : list text) (p p' : text) :
  lookup_megam bin = (printed, Ok p) →
  lookup_megam bin' = (printed', Ok p') →
  config_megam bin w
  = ({| _megam_bin := Some p; sys_stdout := sys_stdout w ++ printed;
        sys_stderr := sys_stderr w; inherited_stderr := inherited_stderr w;
        spawned := spawned w; lookups := lookups w ++ [bin] |}, Ok tt)
  ∧ _megam_bin (config_megam bin' (config_megam bin w).1).1 = Some p'.
Proof.
  intros Hfind Hfind'. rewrite !config_megam_run, Hfind. split; [done|].
  by rewrite Hfind'.
Qed.

Lemma config_megam_success_witness :
  lookup_megam (H := example_system) None
  = ([found_msg (txt "megam") (txt "/usr/bin/megam")],
     Ok (txt "/usr/bin/megam"))
  ∧ _megam_bin (config_megam (H := example_system) None
                  (config_megam (H := example_system) None fresh_world).1).1
    = Some (txt "/usr/bin/megam").
Proof.
  split; [reflexivity|].
  by destruct (config_megam_success (H := example_system) None None
                 fresh_world _ _ _ _ eq_refl eq_refl) as [_ ?].
Defined.

(** ** Blocks and separators *)

Lemma feature_block_firing (vector : list (Z * Z)) :
  feature_block true vector
  = (fun f => txt " " ++ str_int f.1) <$> filter (fun f => f.2 = 1) vector.
Proof.
  unfold feature_block. induction vector as [|[fid fval] vector IH]; [done|].
  rewrite bind_cons, IH. unfold feature_tokens at 1. cbn [fst snd].
  destruct (fval =? 1) eqn:Hv.
  - apply Z.eqb_eq in Hv. by rewrite filter_cons_True by done.
  - apply Z.eqb_neq in Hv. by rewrite filter_cons_False by done.
Qed.

(** X17: in the bernoulli format the features are listed iff they are true:
    for a vector that is not empty and whose values are all 0 or 1,
    [_write_megam_features] writes the ids of the features of value 1, in
    the order of the vector, and nothing else. *)
Theorem write_megam_features_firing (vector : list (Z * Z))
    (bin_stream : bool) (s : list chunk) :
  vector ≠ [] → Forall binary_value vector →
  _write_megam_features vector (stream_of bin_stream) true s
  = (s ++ (chunk_of bin_stream
             <$> ((fun f => txt " " ++ str_int f.1)
                    <$> filter (fun f => f.2 = 1) vector)),
     Ok tt).
Proof.
  intros Hne Hbin. rewrite <- feature_block_firing.
  destruct (write_megam_features_cases bin_stream true vector)
    as [[_ Hw]|[[Hnil _]|(_ & pre & f & post & -> & _ & Hf & _)]];
    [apply Hw | done |].
  apply Forall_app in Hbin as [_ Hbin].
  by apply Forall_cons_1 in Hbin as [? _].
Qed.

Lemma write_megam_features_firing_witness :
  [(4, 1); (5, 0); (6, 1)] ≠ []
  ∧ Forall binary_value [(4, 1); (5, 0); (6, 1)]
  ∧ _write_megam_features [(4, 1); (5, 0); (6, 1)] (stream_of false) true []
    = ([] ++ (chunk_of false
                <$> ((fun f => txt " " ++ str_int f.1)
                       <$> filter (fun f => f.2 = 1)
                             [(4, 1); (5, 0); (6, 1)])),
       Ok tt).
Proof.
  assert (Forall binary_value [(4, 1); (5, 0); (6, 1)]) as Hbin.
  { repeat apply Forall_cons_2; try apply Forall_nil_2;
      (by left) || (by right). }
  split_and!; [done | done |].
  by apply write_megam_features_firing.
Defined.

(** ** What the texts written have in common *)

Lemma for_each_emits_all_with {A} (Q : text → Prop)
    (body : bool → A → SE (list chunk) unit) (xs : list A) :
  (∀ x, x ∈ xs → ∃ log r, Forall Q log ∧ ∀ bin, emits bin (body bin x) log r) →
  ∃ log r, Forall Q log ∧ ∀ bin, emits bin (for_each xs (body bin)) log r.
Proof.
  induction xs as [|x xs IH]; intros Hbody.
  - exists [], (Ok tt). split; [apply Forall_nil_2|].
    intros bin. apply emits_ret.
  - destruct (Hbody x) as (l1 & r1 & HQ1 & H1); [left|].
    destruct IH as (l2 & r2 & HQ2 & H2).
    { intros y Hy. apply Hbody. by right. }
    destruct r1 as [[]|e].
    + exists (l1 ++ l2), r2. split; [by apply Forall_app|].
      intros bin. by eapply emits_bind_ok.
    + exists l1, (Raise e). split; [done|].
      intros bin. by apply emits_bind_raise.
Qed.

Section Written.
Context {FS L C : Type} `{Countable L} `{PyStr C}.
Context (encoding : Encoding FS L C) (bernoulli explicit : bool).
Context (Q : text → Prop).
Hypothesis Q_separator : Q (txt " #").
Hypothesis Q_newline : Q [newline].
Hypothesis Q_id : ∀ fid, Q (txt " " ++ str_int fid).
Hypothesis Q_id_value :
  ∀ fid fval, Q (txt " " ++ str_int fid ++ txt " " ++ str_int fval).
Hypothesis Q_header :
  ∀ tok h, header_text encoding tok = Some h → Q h.

Lemma write_megam_features_written (vector : list (Z * Z)) :
  ∃ log r, Forall Q log
           ∧ ∀ bin, emits bin (_write_megam_features vector (stream_of bin)
                                 bernoulli) log r.
Proof.
  unfold _write_megam_features. case_bool_decide.
  - exists [], (Raise (ValueError always_on_msg)).
    split; [apply Forall_nil_2|]. intros bin. apply emits_raise.
  - apply (for_each_emits_all_with Q
             (fun bin => write_feature (stream_of bin) bernoulli)).
    intros [fid fval] _. unfold write_feature.
    destruct bernoulli; [destruct (fval =? 1); [|destruct (fval =? 0)]|];
      simpl; eexists _, _;
      (split; [|intros bin;
                first [apply emits_stream | apply emits_ret
                      | apply emits_raise]]);
      first [apply Forall_nil_2
            | apply Forall_singleton; first [apply Q_id | apply Q_id_value]].
Qed.

Lemma write_instance_written (tok : FS * L) :
  ∃ log r, Forall Q log
           ∧ ∀ bin, emits bin (write_instance encoding (labels encoding)
                                 (labelnum_of (labels encoding))
                                 (stream_of bin) bernoulli explicit tok)
                      log r.
Proof.
  assert (∃ log r, Forall Q log
                   ∧ ∀ bin, emits bin
                              (write_header encoding (labels encoding)
                                 (labelnum_of (labels encoding))
                                 (stream_of bin) tok.1 tok.2) log r)
    as (lh & rh & HQh & Hh).
  { destruct (header_text encoding tok) as [h|] eqn:Hhead.
    - exists [h], (Ok tt). split; [by apply Forall_singleton, (Q_header tok)|].
      intros bin. destruct (write_header_cases bin encoding tok)
        as [(h' & Hh' & Hw)|[Hn _]]; [|congruence].
      by assert (h' = h) as <- by congruence.
    - exists [], (Raise KeyError). split; [apply Forall_nil_2|].
      intros bin. destruct (write_header_cases bin encoding tok)
        as [(h' & Hh' & _)|[_ Hw]]; [congruence | done]. }
  assert (∃ log r, Forall Q log
                   ∧ ∀ bin, emits bin
                              (write_blocks encoding (labels encoding)
                                 (stream_of bin) bernoulli explicit
                                 tok.1 tok.2) log r)
    as (lb & rb & HQb & Hb).
  { unfold write_blocks. destruct explicit; simpl negb; cbv iota.
    - apply (for_each_emits_all_with Q
               (fun bin l =>
                  stream_of bin (txt " #") ≫= fun _ =>
                  _write_megam_features (encode encoding tok.1 l)
                    (stream_of bin) bernoulli)).
      intros l _.
      destruct (write_megam_features_written (encode encoding tok.1 l))
        as (log & r & HQ & Hw).
      exists ([txt " #"] ++ log), r. split.
      + apply Forall_app. split; [by apply Forall_singleton | done].
      + intros bin. eapply emits_bind_ok; [apply emits_stream | apply Hw].
    - apply write_megam_features_written. }
  destruct tok as [featureset label]. unfold write_instance. simpl in *.
  destruct rh as [[]|e].
  2:{ exists lh, (Raise e). split; [done|].
      intros bin. by apply emits_bind_raise. }
  destruct rb as [[]|e].
  2:{ exists (lh ++ lb), (Raise e). split; [by apply Forall_app|].
      intros bin. eapply emits_bind_ok; [apply Hh|].
      by apply emits_bind_raise. }
  exists (lh ++ lb ++ [[newline]]), (Ok tt). split.
  - repeat (apply Forall_app; split); try done. by apply Forall_singleton.
  - intros bin. eapply emits_bind_ok; [apply Hh|].
    eapply emits_bind_ok; [apply Hb | apply emits_stream].
Qed.

Lemma write_megam_file_written (train_toks : list (FS * L)) :
  ∃ log r, Forall Q log
           ∧ ∀ bin, emits bin (write_megam_file train_toks encoding bernoulli
                                 explicit bin) log r.
Proof.
  unfold write_megam_file.
  apply (for_each_emits_all_with Q
           (fun bin =>
              write_instance encoding (labels encoding)
                (labelnum_of (labels encoding)) (stream_of bin)
                bernoulli explicit)).
  intros tok _. apply write_instance_written.
Qed.

End Written.

(** ** ASCII and UTF-8 *)

Lemma to_N_byte_of_N (c : N) : (c < 256)%N → Byte.to_N (byte_of_N c) = c.
Proof.
  intros Hc. unfold byte_of_N.
  assert (Byte.to_N (byte_of_ascii (ascii_of_N c)) = N_of_ascii (ascii_of_N c))
    as ->.
  { apply Byte.to_of_N. symmetry. apply byte_of_ascii_via_N. }
  by apply N_ascii_embedding.
Qed.

Lemma utf8_decode_ascii_cons (c : N) (r : list N) :
  (c < 128)%N → utf8_decode (c :: r) = cons c <$> utf8_decode r.
Proof.
  intros Hc. cbn [utf8_decode].
  destruct (c <? 128)%N eqn:E; [done|]. apply N.ltb_ge in E. lia.
Qed.

(** Decoding the UTF-8 encoding of an ASCII text gives the text back. *)
Lemma decode_utf8_encode_ascii (t : text) :
  ascii_text t → decode (utf8_encode t) = Ok t.
Proof.
  intros Ht. unfold decode.
  assert (utf8_decode (Byte.to_N <$> utf8_encode t) = Some t) as ->; [|done].
  unfold utf8_encode. induction Ht as [|c t Hc _ IH]; [done|].
  rewrite bind_cons, fmap_app. unfold utf8_encode_char at 1.
  replace (c <? 128)%N with true by (symmetry; by apply N.ltb_lt).
  change (Byte.to_N <$> (byte_of_N <$> [c]))
    with [Byte.to_N (byte_of_N c)].
  rewrite to_N_byte_of_N by lia.
  change ([c] ++ ?r) with (c :: r).
  rewrite utf8_decode_ascii_cons by done.
  by rewrite IH.
Qed.

Lemma str_int_ascii (z : Z) : ascii_text (str_int z).
Proof.
  assert (∀ n, ascii_text (digits n)) as Hd.
  { intros n. destruct (digits_spec n) as (_ & Hds & _).
    eapply Forall_impl; [exact Hds|]. intros c Hc. by digit_cases Hc. }
  unfold str_int. destruct (z <? 0); [|apply Hd].
  apply Forall_cons_2; [done | apply Hd].
Qed.

(** X18: for an encoding without a cost, every text written is ASCII, so
    with [bin_stream] the bytes handed to the stream decode, object by
    object, to the texts that are written without it. *)
Theorem write_megam_file_bytes_decode {FS L C : Type} `{Countable L}
    `{PyStr C} (train_toks : list (FS * L)) (encoding : Encoding FS L C)
    (bernoulli explicit : bool) :
  cost encoding = None →
  ∃ (log : list text) (r : result unit),
    (∀ s, write_megam_file train_toks encoding bernoulli explicit false s
          = (s ++ (Str <$> log), r))
    ∧ (∀ s, write_megam_file train_toks encoding bernoulli explicit true s
            = (s ++ ((fun t => Bytes (utf8_encode t)) <$> log), r))
    ∧ Forall (fun t => ascii_text t ∧ decode (utf8_encode t) = Ok t) log.
Proof.
  intros Hc.
  assert (ascii_text (txt " ")) as Hsp.
  { change (txt " ") with [32%N]. by apply Forall_singleton. }
  destruct (write_megam_file_written encoding bernoulli explicit ascii_text)
    with (train_toks := train_toks) as (log & r & Hlog & Hw).
  - change (txt " #") with [32%N; 35%N]. by repeat apply Forall_cons_2.
  - by apply Forall_singleton.
  - intros fid. apply Forall_app. split; [done | apply str_int_ascii].
  - intros fid fval.
    repeat (apply Forall_app; split); try done; apply str_int_ascii.
  - intros tok h. unfold header_text. rewrite Hc.
    destruct (label_index encoding tok.2) as [i|]; [|done].
    intros [= <-]. apply str_int_ascii.
  - exists log, r. split_and!; [apply (Hw false) | apply (Hw true) |].
    eapply Forall_impl; [exact Hlog|]. intros t Ht.
    split; [done | by apply decode_utf8_encode_ascii].
Qed.

Lemma write_megam_file_bytes_decode_witness :
  cost example_encoding = None
  ∧ ∃ (log : list text) (r : result unit),
      (∀ s, write_megam_file [(1, 10)%nat] example_encoding true true false s
            = (s ++ (Str <$> log), r))
      ∧ (∀ s, write_megam_file [(1, 10)%nat] example_encoding true true true s
              = (s ++ ((fun t => Bytes (utf8_encode t)) <$> log), r))
      ∧ Forall (fun t => ascii_text t ∧ decode (utf8_encode t) = Ok t) log.
Proof.
  split; [reflexivity|].
  by apply (write_megam_file_bytes_decode [(1, 10)%nat] example_encoding
              true true).
Defined.
